(** * fmriprep/workflows/util.py : registration arbitration

    A shallow embedding of [compare_xforms] and of the two workflow
    builders [init_bbreg_wf] and [init_fsl_bbr_wf].

    - numbers are modelled as real numbers, matrices as fixed-shape tuples;
      rounding and NaN are outside the model;
    - the third-party numerical routines ([np.loadtxt], [np.linalg.pinv],
      [transforms3d.affines.decompose44], [transforms3d.axangles.mat2axangle])
      are an interface, a record of operations that may raise;
    - [print] is an append to a standard-output log, exceptions are a sum;
    - a workflow is the list of nodes and the list of connections given to
      [workflow.connect], evaluated as a data-flow graph. *)

From Stdlib Require Import List String Bool Arith Lia Reals Lra Epsilon.
From Stdlib Require QArith Relations.
Import ListNotations.

Set Implicit Arguments.
Set Warnings "-register-all".

(** ** Workflow engine *)

Module Engine.

Open Scope string_scope.

(** The node names used by the two workflow builders. *)
Inductive node : Type :=
| inputnode | outputnode
| mri_coreg | bbregister
| lta_concat | lta2fsl_fwd | lta2fsl_inv
| fsl2itk_fwd | fsl2itk_inv
| transforms | reports
| compare_transforms
| select_transform | select_report
| lta_convert
| wm_mask | flt_bbr_init | flt_bbr | invt_bbr.

Scheme Equality for node.

(** The Python functions wrapped by [niu.Function]. *)
Inductive func : Type := compare_xforms_fn | extract_wm_fn.

(** The interfaces the nodes are built from, with the arguments the source
    gives them. *)
Inductive interface : Type :=
| IdentityInterface (fields : list string)
| MRICoregRPT (dof : nat)
| BBRegisterRPT (dof : nat)
| FLIRTRPT (cost_func : option string) (dof : nat)
| ConcatenateLTA
| LTAConvert (out_fsl out_lta invert : bool)
| C3dAffineTool
| ConvertXFM (invert_xfm : bool)
| Merge (numinputs : nat)
| Select
| Function (function : func)
| MapNode (inner : interface) (iterfield : list string).

(** One entry of [workflow.connect([...])]:
    [(source, destination, [(source field, destination field); ...])]. *)
Definition connection : Type := node * node * list (string * string).

Record workflow : Type := {
  nodes : list (node * interface);
  connections : list connection
}.

(** Values that travel along the connections.  [VOut n f] is the output [f]
    of node [n] when [n] is a workflow input or one of the registration
    programs, whose results are opaque files here.  [VApp n f args] is the
    output [f] of a conversion node [n] run on the inputs [args]. *)
Inductive value : Type :=
| VOut (n : node) (f : string)
| VBool (b : bool)
| VList (l : list value)
| VApp (n : node) (f : string) (args : list (string * value)).

(** The edges that arrive at node [n], flattened:
    (source node, source field, destination field). *)
Definition incoming (w : workflow) (n : node) : list (node * string * string) :=
  flat_map (fun c : connection =>
              let '(src, dst, fs) := c in
              if node_beq dst n
              then map (fun p : string * string => (src, fst p, snd p)) fs
              else [])
           (connections w).

(** The source connected to input [f] of node [n]. *)
Definition source_of (w : workflow) (n : node) (f : string)
  : option (node * string) :=
  match filter (fun e : node * string * string => String.eqb (snd e) f)
               (incoming w n) with
  | e :: _ => Some (fst e)
  | [] => None
  end.

Fixpoint interface_of (l : list (node * interface)) (n : node)
  : option interface :=
  match l with
  | [] => None
  | (m, i) :: r => if node_beq m n then Some i else interface_of r n
  end.

Fixpoint lookup (args : list (string * value)) (f : string) : option value :=
  match args with
  | [] => None
  | (g, v) :: r => if String.eqb g f then Some v else lookup r f
  end.

(** All inputs must have been produced for a node to run. *)
Fixpoint sequence (l : list (string * option value))
  : option (list (string * value)) :=
  match l with
  | [] => Some []
  | (f, Some v) :: r =>
      match sequence r with
      | Some r' => Some ((f, v) :: r')
      | None => None
      end
  | (_, None) :: _ => None
  end.

(** Modelled from the spec: [niu.Merge] belongs to the pipeline engine, not
    to this repository; the spec has a candidate list ordered as its inputs
    are, index 0 from [in1] and index 1 from [in2].  A list input is spliced,
    a single value appended, an unset input skipped. *)
Definition merge_field (i : nat) : string :=
  "in" ++ String (Ascii.ascii_of_nat (48 + i)) "".

Definition merge_out (numinputs : nat) (args : list (string * value))
  : list value :=
  flat_map (fun i => match lookup args (merge_field i) with
                     | Some (VList l) => l
                     | Some v => [v]
                     | None => []
                     end)
           (seq 1 numinputs).

(** Modelled from the spec: the body of [niu.Select] is not part of this
    repository; the spec gives the index a boolean selects as
    [index = 1 if reject_refined else 0]. *)
Definition index_of_bool (reject_refined : bool) : nat :=
  if reject_refined then 1 else 0.

(** [niu.Select]: the element of [inlist] at [index]. *)
Definition select_out (args : list (string * value)) : option value :=
  match lookup args "inlist", lookup args "index" with
  | Some (VList l), Some (VBool b) => nth_error l (index_of_bool b)
  | _, _ => None
  end.

Section Eval.

(** What the function behind [compare_transforms] returns on the two files
    it is given, [None] when it raises. *)
Variable cmp : value -> value -> option bool.

Variable w : workflow.

Definition run_function (fn : func) (n : node) (f : string)
           (args : list (string * value)) : option value :=
  match fn with
  | compare_xforms_fn =>
      match lookup args "test_mat", lookup args "fallback_mat" with
      | Some t, Some fb =>
          match cmp t fb with
          | Some b => Some (VBool b)
          | None => None
          end
      | _, _ => None
      end
  | extract_wm_fn => Some (VApp n f args)
  end.

(** The value of output [f] of node [n]: a connection hands the output field
    of its source to the input field of its destination, and a node runs on
    the inputs connected to it.  The registration programs are outside the
    arbitration: their output files are atoms.  An [IdentityInterface] field
    passes on what is connected to it, and is a workflow input when nothing
    is. *)
Fixpoint eval_out (fuel : nat) (n : node) (f : string) : option value :=
  match fuel with
  | O => None
  | S k =>
      match interface_of (nodes w) n with
      | None => None
      | Some (MRICoregRPT _) | Some (BBRegisterRPT _) | Some (FLIRTRPT _ _) =>
          Some (VOut n f)
      | Some (IdentityInterface fields) =>
          if existsb (String.eqb f) fields
          then match source_of w n f with
               | Some (src, sf) => eval_out k src sf
               | None => Some (VOut n f)
               end
          else None
      | Some i =>
          match sequence (map (fun e : node * string * string =>
                                 let '(src, sf, df) := e in
                                 (df, eval_out k src sf))
                              (incoming w n)) with
          | None => None
          | Some args =>
              match i with
              | Merge numinputs => Some (VList (merge_out numinputs args))
              | Select => select_out args
              | Function fn => run_function fn n f args
              | _ => Some (VApp n f args)
              end
          end
      end
  end.

(** The value that reaches input [f] of node [n]. *)
Definition eval_in (fuel : nat) (n : node) (f : string) : option value :=
  match source_of w n f with
  | Some (src, sf) => eval_out fuel src sf
  | None => None
  end.

End Eval.

(** Does the file [VOut n f] occur in a value? *)
Fixpoint mentions (n : node) (f : string) (v : value) : bool :=
  match v with
  | VOut m g => node_beq m n && String.eqb g f
  | VBool _ => false
  | VList l => existsb (mentions n f) l
  | VApp _ _ args =>
      (fix go (a : list (string * value)) : bool :=
         match a with
         | [] => false
         | (_, x) :: r => mentions n f x || go r
         end) args
  end.

(** The node a file comes from. *)
Definition origin (v : value) : option node :=
  match v with
  | VOut n _ => Some n
  | VApp n _ _ => Some n
  | _ => None
  end.

(** Does a node hand on the inverse of the transform it is given?
    ([invert=True] of [LTAConvert], [invert_xfm=True] of [ConvertXFM].) *)
Definition inverting (i : interface) : bool :=
  match i with
  | LTAConvert _ _ invert => invert
  | ConvertXFM invert_xfm => invert_xfm
  | _ => false
  end.

(** The number of inverting nodes a value went through. *)
Fixpoint inversions (w : workflow) (v : value) : nat :=
  match v with
  | VOut _ _ => 0
  | VBool _ => 0
  | VList l => list_sum (map (inversions w) l)
  | VApp n _ args =>
      (match interface_of (nodes w) n with
       | Some i => if inverting i then 1 else 0
       | None => 0
       end)
      + (fix go (a : list (string * value)) : nat :=
           match a with
           | [] => 0
           | (_, x) :: r => inversions w x + go r
           end) args
  end.

(** [init_bbreg_wf(bold2t1w_dof, omp_nthreads)] *)
Definition init_bbreg_wf (bold2t1w_dof omp_nthreads : nat) : workflow := {|
  nodes := [
    (inputnode, IdentityInterface
       ["in_file"; "t1_2_fsnative_reverse_transform"; "subjects_dir";
        "subject_id"; "t1_seg"; "t1_brain"]);
    (outputnode, IdentityInterface
       ["itk_bold_to_t1"; "itk_t1_to_bold"; "out_report"; "fallback"]);
    (mri_coreg, MRICoregRPT bold2t1w_dof);
    (bbregister, BBRegisterRPT bold2t1w_dof);
    (lta_concat, ConcatenateLTA);
    (lta2fsl_fwd, LTAConvert true false false);
    (lta2fsl_inv, LTAConvert true false true);
    (fsl2itk_fwd, C3dAffineTool);
    (fsl2itk_inv, C3dAffineTool);
    (transforms, Merge 2);
    (reports, Merge 2);
    (compare_transforms, Function compare_xforms_fn);
    (select_transform, Select);
    (select_report, Select);
    (lta_convert, MapNode (LTAConvert false true false) ["in_lta"])
  ];
  connections := [
    (inputnode, mri_coreg, [("subjects_dir", "subjects_dir");
                            ("subject_id", "subject_id");
                            ("in_file", "source_file")]);
    (inputnode, bbregister, [("subjects_dir", "subjects_dir");
                             ("subject_id", "subject_id");
                             ("in_file", "source_file")]);
    (mri_coreg, bbregister, [("out_lta_file", "init_reg_file")]);
    (inputnode, lta_concat, [("t1_2_fsnative_reverse_transform", "in_lta2")]);
    (lta_concat, lta2fsl_fwd, [("out_file", "in_lta")]);
    (lta_concat, lta2fsl_inv, [("out_file", "in_lta")]);
    (inputnode, fsl2itk_fwd, [("t1_brain", "reference_file");
                              ("in_file", "source_file")]);
    (inputnode, fsl2itk_inv, [("in_file", "reference_file");
                              ("t1_brain", "source_file")]);
    (lta2fsl_fwd, fsl2itk_fwd, [("out_fsl", "transform_file")]);
    (lta2fsl_inv, fsl2itk_inv, [("out_fsl", "transform_file")]);
    (fsl2itk_fwd, outputnode, [("itk_transform", "itk_bold_to_t1")]);
    (fsl2itk_inv, outputnode, [("itk_transform", "itk_t1_to_bold")]);
    (bbregister, transforms, [("out_lta_file", "in1")]);
    (mri_coreg, transforms, [("out_lta_file", "in2")]);
    (bbregister, compare_transforms, [("out_lta_file", "test_mat")]);
    (mri_coreg, compare_transforms, [("out_lta_file", "fallback_mat")]);
    (compare_transforms, outputnode, [("out", "fallback")]);
    (transforms, select_transform, [("out", "inlist")]);
    (compare_transforms, select_transform, [("out", "index")]);
    (select_transform, lta_concat, [("out", "in_lta1")]);
    (bbregister, reports, [("out_report", "in1")]);
    (mri_coreg, reports, [("out_report", "in2")]);
    (reports, select_report, [("out", "inlist")]);
    (compare_transforms, select_report, [("out", "index")]);
    (select_report, outputnode, [("out", "out_report")]);
    (transforms, lta_convert, [("out", "in_lta")])
  ]
|}.

(** [init_fsl_bbr_wf(bold2t1w_dof)] *)
Definition init_fsl_bbr_wf (bold2t1w_dof : nat) : workflow := {|
  nodes := [
    (inputnode, IdentityInterface
       ["in_file"; "t1_2_fsnative_reverse_transform"; "subjects_dir";
        "subject_id"; "t1_seg"; "t1_brain"]);
    (outputnode, IdentityInterface
       ["itk_bold_to_t1"; "itk_t1_to_bold"; "out_report"; "fallback"]);
    (wm_mask, Function extract_wm_fn);
    (flt_bbr_init, FLIRTRPT None 6);
    (flt_bbr, FLIRTRPT (Some "bbr") bold2t1w_dof);
    (invt_bbr, ConvertXFM true);
    (fsl2itk_fwd, C3dAffineTool);
    (fsl2itk_inv, C3dAffineTool);
    (transforms, Merge 2);
    (reports, Merge 2);
    (compare_transforms, Function compare_xforms_fn);
    (select_transform, Select);
    (select_report, Select);
    (lta_convert, MapNode (LTAConvert false true false) ["in_fsl"])
  ];
  connections := [
    (inputnode, wm_mask, [("t1_seg", "in_seg")]);
    (inputnode, flt_bbr_init, [("in_file", "in_file");
                               ("t1_brain", "reference")]);
    (flt_bbr_init, flt_bbr, [("out_matrix_file", "in_matrix_file")]);
    (inputnode, flt_bbr, [("in_file", "in_file");
                          ("t1_brain", "reference")]);
    (wm_mask, flt_bbr, [("out", "wm_seg")]);
    (inputnode, fsl2itk_fwd, [("t1_brain", "reference_file");
                              ("in_file", "source_file")]);
    (inputnode, fsl2itk_inv, [("in_file", "reference_file");
                              ("t1_brain", "source_file")]);
    (flt_bbr, compare_transforms, [("out_matrix_file", "test_mat")]);
    (flt_bbr_init, compare_transforms, [("out_matrix_file", "fallback_mat")]);
    (compare_transforms, outputnode, [("out", "fallback")]);
    (flt_bbr, transforms, [("out_matrix_file", "in1")]);
    (flt_bbr_init, transforms, [("out_matrix_file", "in2")]);
    (transforms, select_transform, [("out", "inlist")]);
    (compare_transforms, select_transform, [("out", "index")]);
    (select_transform, invt_bbr, [("out", "in_file")]);
    (select_transform, fsl2itk_fwd, [("out", "transform_file")]);
    (invt_bbr, fsl2itk_inv, [("out_file", "transform_file")]);
    (fsl2itk_fwd, outputnode, [("itk_transform", "itk_bold_to_t1")]);
    (fsl2itk_inv, outputnode, [("itk_transform", "itk_t1_to_bold")]);
    (flt_bbr, reports, [("out_report", "in1")]);
    (flt_bbr_init, reports, [("out_report", "in2")]);
    (reports, select_report, [("out", "inlist")]);
    (compare_transforms, select_report, [("out", "index")]);
    (select_report, outputnode, [("out", "out_report")]);
    (transforms, lta_convert, [("out", "in_fsl")]);
    (inputnode, lta_convert, [("in_file", "source_file");
                              ("t1_brain", "target_file")])
  ]
|}.

(** The two registrations of each workflow, as the docstrings name them: the
    boundary-based one is the refined candidate, the one returned when "BBR
    was rejected" is the fallback. *)
Inductive strategy : Type := BBRegister | FSL_BBR.

Definition refined (s : strategy) : node :=
  match s with BBRegister => bbregister | FSL_BBR => flt_bbr end.

Definition fallback (s : strategy) : node :=
  match s with BBRegister => mri_coreg | FSL_BBR => flt_bbr_init end.

(** The candidate a verdict selects. *)
Definition chosen (s : strategy) (reject_refined : bool) : node :=
  if reject_refined then fallback s else refined s.

Definition unchosen (s : strategy) (reject_refined : bool) : node :=
  if reject_refined then refined s else fallback s.

(** The output field that carries a registration's transform. *)
Definition xfm_field (s : strategy) : string :=
  match s with BBRegister => "out_lta_file" | FSL_BBR => "out_matrix_file" end.

Definition build (s : strategy) (bold2t1w_dof omp_nthreads : nat) : workflow :=
  match s with
  | BBRegister => init_bbreg_wf bold2t1w_dof omp_nthreads
  | FSL_BBR => init_fsl_bbr_wf bold2t1w_dof
  end.

(** Enough evaluation steps for the longest chain of either graph. *)
Definition depth : nat := 12.

End Engine.


(** ** Arrays *)

Module Numpy.

Open Scope R_scope.

(** Arrays of the shapes that occur: 3-vectors, 3x3 and 4x4 matrices, the
    matrices by rows. *)
Definition vec3 : Type := R * R * R.
Definition vec4 : Type := R * R * R * R.
Definition mat33 : Type := vec3 * vec3 * vec3.
Definition mat44 : Type := vec4 * vec4 * vec4 * vec4.

Definition eye3 : mat33 := ((1, 0, 0), (0, 1, 0), (0, 0, 1)).

Definition eye4 : mat44 :=
  ((1, 0, 0, 0), (0, 1, 0, 0), (0, 0, 1, 0), (0, 0, 0, 1)).

(** [u.dot(v)] on 3-vectors. *)
Definition dot3 (u v : vec3) : R :=
  let '(u0, u1, u2) := u in
  let '(v0, v1, v2) := v in
  u0 * v0 + u1 * v1 + u2 * v2.

Definition dot4 (u v : vec4) : R :=
  let '(u0, u1, u2, u3) := u in
  let '(v0, v1, v2, v3) := v in
  u0 * v0 + u1 * v1 + u2 * v2 + u3 * v3.

(** [A.T] *)
Definition transpose (A : mat44) : mat44 :=
  let '((a00, a01, a02, a03), (a10, a11, a12, a13),
        (a20, a21, a22, a23), (a30, a31, a32, a33)) := A in
  ((a00, a10, a20, a30), (a01, a11, a21, a31),
   (a02, a12, a22, a32), (a03, a13, a23, a33)).

(** [A.dot(B)] on 4x4 matrices: rows of [A] against columns of [B]. *)
Definition dot (A B : mat44) : mat44 :=
  let '(r0, r1, r2, r3) := A in
  let '(c0, c1, c2, c3) := transpose B in
  ((dot4 r0 c0, dot4 r0 c1, dot4 r0 c2, dot4 r0 c3),
   (dot4 r1 c0, dot4 r1 c1, dot4 r1 c2, dot4 r1 c3),
   (dot4 r2 c0, dot4 r2 c1, dot4 r2 c2, dot4 r2 c3),
   (dot4 r3 c0, dot4 r3 c1, dot4 r3 c2, dot4 r3 c3)).

(** [np.abs] and [np.max] on a 3-vector. *)
Definition np_abs (v : vec3) : vec3 :=
  let '(a, b, c) := v in (Rabs a, Rabs b, Rabs c).

Definition np_max (v : vec3) : R :=
  let '(a, b, c) := v in Rmax (Rmax a b) c.

(** [x > y], a boolean. *)
Definition gt (x y : R) : bool :=
  if Rlt_dec y x then true else false.

(** The exceptions the numerical routines raise. *)
Inductive exn : Type := OSError | ValueError | LinAlgError.

Definition result (A : Type) : Type := (exn + A)%type.

(** The routines [compare_xforms] imports.  [np.loadtxt] reads the file a
    workflow value names. *)
Record library : Type := {
  loadtxt : Engine.value -> result mat44;
  pinv : mat44 -> result mat44;
  decompose44 : mat44 -> result (vec3 * mat33 * vec3 * vec3);
  mat2axangle : mat33 -> result (vec3 * R)
}.

(** A line written by [print]: the format string and the arguments given to
    [.format]. *)
Definition line : Type := (string * list R)%type.

Definition stdout : Type := list line.

(** Computations that print and may raise. *)
Definition M (A : Type) : Type := stdout -> result A * stdout.

Definition ret {A : Type} (a : A) : M A := fun out => (inr a, out).

Definition bind {A B : Type} (c : M A) (k : A -> M B) : M B :=
  fun out =>
    match c out with
    | (inl e, out') => (inl e, out')
    | (inr a, out') => k a out'
    end.

(** A call of a library routine: its value, or its exception. *)
Definition call {A : Type} (r : result A) : M A := fun out => (r, out).

(** [print] appends a line; writing to the output is taken not to fail. *)
Definition print (l : line) : M unit := fun out => (inr tt, out ++ [l]).

End Numpy.

Import Numpy.

Declare Scope monad_scope.
Delimit Scope monad_scope with monad.
Notation "x <- c ;; k" := (bind c (fun x => k))
  (at level 61, c at next level, right associativity) : monad_scope.
Notation "c ;; k" := (bind c (fun _ => k))
  (at level 61, right associativity) : monad_scope.

(** ** compare_xforms *)

Open Scope R_scope.
Open Scope monad_scope.

Definition metrics_format : string :=
  "Shift: {:.1g}mm\nRotation: {:.1g}°\nScale: {:.2g}"%string.

Definition compare_xforms (np : library) (test_mat fallback_mat : Engine.value)
  : M bool :=
  mat1 <- call (loadtxt np fallback_mat) ;;
  mat2 <- call (loadtxt np test_mat) ;;
  mat1_pinv <- call (pinv np mat1) ;;
  let comp := dot mat2 mat1_pinv in
  d <- call (decompose44 np comp) ;;
  let '(trans, rotation_matrix, scales, shears) := d in
  let shift_thresh := 5 in
  let rot_thresh := PI / 36 in
  let scale_thresh := 1.1 in
  let shift_magnitude := sqrt (dot3 trans trans) in
  axangle <- call (mat2axangle np rotation_matrix) ;;
  let rot := snd axangle in
  let max_scale := np_max (np_abs scales) in
  print (metrics_format, [shift_magnitude; rot * 180 / PI; max_scale]) ;;
  ret (gt shift_magnitude shift_thresh
       || gt rot rot_thresh
       || gt max_scale scale_thresh).

(** What a node that wraps [compare_xforms] hands on: the returned boolean,
    nothing when the call raised. *)
Definition returned {A : Type} (r : result A * stdout) : option A :=
  match fst r with
  | inr a => Some a
  | inl _ => None
  end.

Definition compare_node (np : library) (out : stdout)
           (test_mat fallback_mat : Engine.value) : option bool :=
  returned (compare_xforms np test_mat fallback_mat out).

(** One pass of a workflow: the selected transform, the selected report and
    the verdict, as they leave the arbitration. *)
Definition arbitrate (np : library) (out : stdout) (w : Engine.workflow)
  : option Engine.value * option Engine.value * option Engine.value :=
  let ev := Engine.eval_out (compare_node np out) w Engine.depth in
  (ev Engine.select_transform "out"%string,
   ev Engine.select_report "out"%string,
   ev Engine.outputnode "fallback"%string).

(** The expression [compare_xforms] returns, as a function of the three
    metrics. *)
Definition gate (shift_magnitude rot max_scale : R) : bool :=
  gt shift_magnitude 5 || gt rot (PI / 36) || gt max_scale 1.1.

(** ** What is asked of the numerical routines *)

(** The four Penrose equations: [X] is the pseudo-inverse of [A]. *)
Definition penrose (A X : mat44) : Prop :=
  dot (dot A X) A = A /\
  dot (dot X A) X = X /\
  transpose (dot A X) = dot A X /\
  transpose (dot X A) = dot X A.

Definition invertible (A : mat44) : Prop :=
  exists B : mat44, dot A B = eye4 /\ dot B A = eye4.

(** The affine matrix with linear block [L] and translation [t]. *)
Definition affine (L : mat33) (t : vec3) : mat44 :=
  let '((l00, l01, l02), (l10, l11, l12), (l20, l21, l22)) := L in
  let '(t0, t1, t2) := t in
  ((l00, l01, l02, t0), (l10, l11, l12, t1), (l20, l21, l22, t2),
   (0, 0, 0, 1)).

Definition linear_block (A : mat44) : mat33 :=
  let '((a00, a01, a02, _), (a10, a11, a12, _), (a20, a21, a22, _), _) := A in
  ((a00, a01, a02), (a10, a11, a12), (a20, a21, a22)).

Definition det3 (L : mat33) : R :=
  let '((a, b, c), (d, e, f), (g, h, i)) := L in
  a * (e * i - f * h) - b * (d * i - f * g) + c * (d * h - e * g).

Definition translation (t : vec3) : mat44 := affine eye3 t.

(** The matrix that stretches the first axis by [k]. *)
Definition stretch (k : R) : mat44 :=
  affine ((k, 0, 0), (0, 1, 0), (0, 0, 1)) (0, 0, 0).

(** The shear matrix with shears [sxy], [sxz] and [syz]. *)
Definition shear (sxy sxz syz : R) : mat44 :=
  affine ((1, sxy, sxz), (0, 1, syz), (0, 0, 1)) (0, 0, 0).

(** Two results of a decomposition that differ in their shears at most: the
    same exception, or the same translation, rotation and scales. *)
Definition agree_up_to_shears
           (r r' : result (vec3 * mat33 * vec3 * vec3)) : Prop :=
  match r, r' with
  | inl e, inl e' => e = e'
  | inr (t, Rm, sc, _), inr (t', Rm', sc', _) =>
      t = t' /\ Rm = Rm' /\ sc = sc'
  | _, _ => False
  end.

Definition ones : vec3 := (1, 1, 1).
Definition zeros : vec3 := (0, 0, 0).

(** A fallback matrix whose linear block is singular (its third axis is
    collapsed), with the pseudo-inverse the Penrose equations give it. *)
Definition singular_fallback : mat44 :=
  ((1, 0, 0, 0), (0, 1, 0, 0), (0, 0, 0, 1), (0, 0, 0, 1)).

Definition singular_fallback_pinv : mat44 :=
  ((1, 0, 0, 0), (0, 1, 0, 0), (0, 0, 0, 0), (0, 0, 1 / 2, 1 / 2)).

(** ** A reference library in exact arithmetic *)

Module Exact.

(** Modelled from the spec: [np.linalg.pinv] is not part of this repository;
    the spec asks for the pseudo-inverse, which is the matrix the Penrose
    equations determine (they have at most one solution).  Nothing is
    raised. *)
Definition pinv (A : mat44) : result mat44 :=
  inr (epsilon (inhabits eye4) (penrose A)).

Definition scale3 (k : R) (v : vec3) : vec3 :=
  let '(a, b, c) := v in (k * a, k * b, k * c).

Definition div3 (v : vec3) (k : R) : vec3 :=
  let '(a, b, c) := v in (a / k, b / k, c / k).

Definition add3 (u v : vec3) : vec3 :=
  let '(u0, u1, u2) := u in
  let '(v0, v1, v2) := v in (u0 + v0, u1 + v1, u2 + v2).

Definition sub3 (u v : vec3) : vec3 :=
  let '(u0, u1, u2) := u in
  let '(v0, v1, v2) := v in (u0 - v0, u1 - v1, u2 - v2).

Definition of_columns (c0 c1 c2 : vec3) : mat33 :=
  let '(a0, a1, a2) := c0 in
  let '(b0, b1, b2) := c1 in
  let '(d0, d1, d2) := c2 in
  ((a0, b0, d0), (a1, b1, d1), (a2, b2, d2)).

Definition eqb0 (x : R) : bool :=
  if Req_dec_T x 0 then true else false.

(** Modelled from the spec: [transforms3d.affines.decompose44] is not part of
    this repository.  The spec asks for the translation of the last column
    and for a rotation, a diagonal scale and off-diagonal shears of the
    linear block; this is the column by column orthogonalisation that yields
    them: [sx], [sy], [sz] are the norms of the orthogonalised columns, the
    sign of [sx] makes the determinant of the rotation positive.  Where a
    norm is 0 the division has no real value (the arrays would hold NaN, which
    [np.linalg.eig] refuses with LinAlgError); the model raises there. *)
Definition decompose44 (A44 : mat44) : result (vec3 * mat33 * vec3 * vec3) :=
  let '((a00, a01, a02, a03), (a10, a11, a12, a13),
        (a20, a21, a22, a23), _) := A44 in
  let T := (a03, a13, a23) in
  let M0 := (a00, a10, a20) in
  let M1 := (a01, a11, a21) in
  let M2 := (a02, a12, a22) in
  let sx := sqrt (dot3 M0 M0) in
  let M0 := div3 M0 sx in
  let sx_sxy := dot3 M0 M1 in
  let M1 := sub3 M1 (scale3 sx_sxy M0) in
  let sy := sqrt (dot3 M1 M1) in
  let M1 := div3 M1 sy in
  let sxy := sx_sxy / sx in
  let sx_sxz := dot3 M0 M2 in
  let sy_syz := dot3 M1 M2 in
  let M2 := sub3 M2 (add3 (scale3 sx_sxz M0) (scale3 sy_syz M1)) in
  let sz := sqrt (dot3 M2 M2) in
  let M2 := div3 M2 sz in
  let sxz := sx_sxz / sx in
  let syz := sy_syz / sy in
  if eqb0 sx || eqb0 sy || eqb0 sz then inl LinAlgError
  else if Rlt_dec (det3 (of_columns M0 M1 M2)) 0
       then inr (T, of_columns (scale3 (-1) M0) M1 M2,
                 (- sx, sy, sz), (sxy, sxz, syz))
       else inr (T, of_columns M0 M1 M2, (sx, sy, sz), (sxy, sxz, syz)).

Definition trace3 (L : mat33) : R :=
  let '((a, _, _), (_, e, _), (_, _, i)) := L in a + e + i.

(** Modelled from the spec: [transforms3d.axangles.mat2axangle] is not part
    of this repository; the spec asks for the angle component of the
    axis-angle representation of the rotation matrix, in the range [0, PI].
    That is the angle whose cosine is [(trace - 1) / 2]; the axis is read off
    the antisymmetric part. *)
Definition mat2axangle (mat : mat33) : result (vec3 * R) :=
  let '((_, m01, m02), (m10, _, m12), (m20, m21, _)) := mat in
  let angle := acos ((trace3 mat - 1) / 2) in
  inr (div3 (m21 - m12, m02 - m20, m10 - m01) (2 * sin angle), angle).

(** The files of a run: the matrix the refined registration wrote, and the
    one the fallback registration wrote. *)
Definition disk (s : Engine.strategy) (refined_mat fallback_mat : mat44)
  : Engine.value -> result mat44 :=
  fun v =>
    match v with
    | Engine.VOut n f =>
        if String.eqb f (Engine.xfm_field s)
        then if Engine.node_beq n (Engine.refined s) then inr refined_mat
             else if Engine.node_beq n (Engine.fallback s)
                  then inr fallback_mat
                  else inl OSError
        else inl OSError
    | _ => inl ValueError
    end.

Definition lib (s : Engine.strategy) (refined_mat fallback_mat : mat44)
  : library := {|
  Numpy.loadtxt := disk s refined_mat fallback_mat;
  Numpy.pinv := pinv;
  Numpy.decompose44 := decompose44;
  Numpy.mat2axangle := mat2axangle
|}.

End Exact.

(** ** Graphs of connections *)

(** What does not depend on the nodes of a particular workflow: the edges of
    a connection list, the ports they arrive at, and an evaluation for
    workflows whose nodes are all [IdentityInterface]s or programs run on
    their inputs. *)
Module Dataflow.

Section Graph.

Variable node : Type.
Variable node_eqb : node -> node -> bool.

(** One entry of [workflow.connect([...])]. *)
Definition connection : Type := (node * node * list (string * string))%type.

(** (source node, source field, destination node, destination field). *)
Definition edge : Type := (node * string * node * string)%type.

Definition edges (cs : list connection) : list edge :=
  flat_map (fun c : connection =>
              let '(src, dst, fs) := c in
              map (fun p : string * string => (src, fst p, dst, snd p)) fs)
           cs.

Definition src_port (e : edge) : node * string :=
  let '(src, sf, _, _) := e in (src, sf).

Definition dst_port (e : edge) : node * string :=
  let '(_, _, dst, df) := e in (dst, df).

(** [a] feeds [b] directly. *)
Definition feeds (cs : list connection) (a b : node) : Prop :=
  exists sf df, In (a, sf, b, df) (edges cs).

(** [b] depends on [a]: a chain of connections leads from [a] to [b]. *)
Definition depends_on (cs : list connection) (b a : node) : Prop :=
  Relation_Operators.clos_trans node (feeds cs) a b.

(** Every edge goes from a lower to a higher rank. *)
Definition ranked (rank : node -> nat) (cs : list connection) : bool :=
  forallb (fun e : edge =>
             let '(src, _, dst, _) := e in Nat.ltb (rank src) (rank dst))
          (edges cs).

(** The source fields read from node [n], the destination fields written on
    it. *)
Definition fields_read (cs : list connection) (n : node) : list string :=
  map (fun e : edge => snd (src_port e))
      (filter (fun e : edge => node_eqb (fst (src_port e)) n) (edges cs)).

Definition fields_written (cs : list connection) (n : node) : list string :=
  map (fun e : edge => snd (dst_port e))
      (filter (fun e : edge => node_eqb (fst (dst_port e)) n) (edges cs)).

(** A node is an [IdentityInterface] with its fields, or a program. *)
Inductive role : Type :=
| Identity (fields : list string)
| Tool.

Record graph : Type := {
  roles : list (node * role);
  wires : list connection
}.

Fixpoint role_of (l : list (node * role)) (n : node) : option role :=
  match l with
  | [] => None
  | (m, r) :: l' => if node_eqb m n then Some r else role_of l' n
  end.

Definition incoming (g : graph) (n : node) : list edge :=
  filter (fun e : edge => node_eqb (fst (dst_port e)) n) (edges (wires g)).

Definition source_of (g : graph) (n : node) (f : string)
  : option (node * string) :=
  match filter (fun e : edge => String.eqb (snd (dst_port e)) f)
               (incoming g n) with
  | e :: _ => Some (src_port e)
  | [] => None
  end.

(** [Input f] is the workflow input [f]; [Run n f args] is the output [f] of
    program [n] run on the inputs [args]. *)
Inductive term : Type :=
| Input (f : string)
| Run (n : node) (f : string) (args : list (string * term)).

Fixpoint sequence (l : list (string * option term))
  : option (list (string * term)) :=
  match l with
  | [] => Some []
  | (f, Some v) :: r =>
      match sequence r with
      | Some r' => Some ((f, v) :: r')
      | None => None
      end
  | (_, None) :: _ => None
  end.

(** The value of output [f] of node [n]: an [IdentityInterface] field passes
    on what is connected to it and is a workflow input when nothing is; a
    program runs on all the inputs connected to it. *)
Fixpoint eval_out (g : graph) (fuel : nat) (n : node) (f : string)
  : option term :=
  match fuel with
  | O => None
  | S k =>
      match role_of (roles g) n with
      | None => None
      | Some (Identity fields) =>
          if existsb (String.eqb f) fields
          then match source_of g n f with
               | Some (src, sf) => eval_out g k src sf
               | None => Some (Input f)
               end
          else None
      | Some Tool =>
          match sequence (map (fun e : edge =>
                                 let '(src, sf, _, df) := e in
                                 (df, eval_out g k src sf))
                              (incoming g n)) with
          | None => None
          | Some args => Some (Run n f args)
          end
      end
  end.

(** The fields the connections use on a node are fields it has: those of an
    [IdentityInterface] are known, those of a program are not checked. *)
Definition has_field (g : graph) (p : node * string) : bool :=
  match role_of (roles g) (fst p) with
  | Some (Identity fields) => existsb (String.eqb (snd p)) fields
  | Some Tool => true
  | None => false
  end.

Definition fields_exist (g : graph) : bool :=
  forallb (fun e : edge => has_field g (src_port e) && has_field g (dst_port e))
          (edges (wires g)).

(** Are the ports of a list all different? *)
Definition port_eqb (p q : node * string) : bool :=
  node_eqb (fst p) (fst q) && String.eqb (snd p) (snd q).

Fixpoint distinct (l : list (node * string)) : bool :=
  match l with
  | [] => true
  | p :: r => negb (existsb (port_eqb p) r) && distinct r
  end.

(** Does program [n] occur in a term? *)
Fixpoint uses (n : node) (t : term) : bool :=
  match t with
  | Input _ => false
  | Run m _ args =>
      node_eqb m n
      || (fix go (a : list (string * term)) : bool :=
            match a with
            | [] => false
            | (_, x) :: r => uses n x || go r
            end) args
  end.

End Graph.

End Dataflow.

(** ** The skull-stripping workflows *)

Module Skullstrip.

Open Scope string_scope.

Inductive node : Type :=
| inputnode | outputnode
| n4_correct | skullstrip_first_pass | unifize | skullstrip_second_pass
| combine_masks | apply_mask | copy_xform | mask_reportlet.

Scheme Equality for node.

(** The interfaces of the nodes, with the arguments the source gives them. *)
Inductive interface : Type :=
| IdentityInterface (fields : list string)
| N4BiasFieldCorrection (dimension : nat) (copy_header : bool)
                        (num_threads : nat)
| BET (frac : QArith_base.Q) (mask : bool)
| Unifize (t2 : bool) (outputtype args out_file : string)
| Automask (dilate : nat) (outputtype : string)
| BinaryMaths (operation : string)
| ApplyMask
| CopyXForm
| SimpleShowMaskRPT.

Record workflow : Type := {
  nodes : list (node * interface);
  connections : list (Dataflow.connection node)
}.

Definition role_of_interface (i : interface) : Dataflow.role :=
  match i with
  | IdentityInterface fields => Dataflow.Identity fields
  | _ => Dataflow.Tool
  end.

Definition graph_of (w : workflow) : Dataflow.graph node := {|
  Dataflow.roles := map (fun p : node * interface =>
                           (fst p, role_of_interface (snd p))) (nodes w);
  Dataflow.wires := connections w
|}.

(** [init_enhance_and_skullstrip_bold_wf(omp_nthreads=1)] *)
Definition init_enhance_and_skullstrip_bold_wf (omp_nthreads : nat)
  : workflow := {|
  nodes := [
    (inputnode, IdentityInterface ["in_file"]);
    (outputnode, IdentityInterface
       ["mask_file"; "skull_stripped_file"; "bias_corrected_file";
        "out_report"]);
    (n4_correct, N4BiasFieldCorrection 3 true omp_nthreads);
    (skullstrip_first_pass, BET (QArith_base.Qmake 2 10) true);
    (unifize, Unifize true "NIFTI_GZ" "-clfrac 0.4" "uni.nii.gz");
    (skullstrip_second_pass, Automask 1 "NIFTI_GZ");
    (combine_masks, BinaryMaths "mul");
    (apply_mask, ApplyMask);
    (copy_xform, CopyXForm);
    (mask_reportlet, SimpleShowMaskRPT)
  ];
  connections := [
    (inputnode, n4_correct, [("in_file", "input_image")]);
    (inputnode, copy_xform, [("in_file", "hdr_file")]);
    (n4_correct, skullstrip_first_pass, [("output_image", "in_file")]);
    (skullstrip_first_pass, unifize, [("out_file", "in_file")]);
    (unifize, skullstrip_second_pass, [("out_file", "in_file")]);
    (skullstrip_first_pass, combine_masks, [("mask_file", "in_file")]);
    (skullstrip_second_pass, combine_masks, [("out_file", "operand_file")]);
    (unifize, apply_mask, [("out_file", "in_file")]);
    (combine_masks, apply_mask, [("out_file", "mask_file")]);
    (n4_correct, mask_reportlet, [("output_image", "background_file")]);
    (combine_masks, mask_reportlet, [("out_file", "mask_file")]);
    (combine_masks, outputnode, [("out_file", "mask_file")]);
    (mask_reportlet, outputnode, [("out_report", "out_report")]);
    (apply_mask, copy_xform, [("out_file", "in_file")]);
    (copy_xform, outputnode, [("out_file", "skull_stripped_file")]);
    (n4_correct, outputnode, [("output_image", "bias_corrected_file")])
  ]
|}.

(** [init_skullstrip_bold_wf()] *)
Definition init_skullstrip_bold_wf : workflow := {|
  nodes := [
    (inputnode, IdentityInterface ["in_file"]);
    (outputnode, IdentityInterface
       ["mask_file"; "skull_stripped_file"; "out_report"]);
    (skullstrip_first_pass, BET (QArith_base.Qmake 2 10) true);
    (skullstrip_second_pass, Automask 1 "NIFTI_GZ");
    (combine_masks, BinaryMaths "mul");
    (apply_mask, ApplyMask);
    (mask_reportlet, SimpleShowMaskRPT)
  ];
  connections := [
    (inputnode, skullstrip_first_pass, [("in_file", "in_file")]);
    (skullstrip_first_pass, skullstrip_second_pass, [("out_file", "in_file")]);
    (skullstrip_first_pass, combine_masks, [("mask_file", "in_file")]);
    (skullstrip_second_pass, combine_masks, [("out_file", "operand_file")]);
    (combine_masks, outputnode, [("out_file", "mask_file")]);
    (inputnode, apply_mask, [("in_file", "in_file")]);
    (combine_masks, apply_mask, [("out_file", "mask_file")]);
    (apply_mask, outputnode, [("out_file", "skull_stripped_file")]);
    (inputnode, mask_reportlet, [("in_file", "background_file")]);
    (combine_masks, mask_reportlet, [("out_file", "mask_file")]);
    (mask_reportlet, outputnode, [("out_report", "out_report")])
  ]
|}.

Fixpoint interface_of (l : list (node * interface)) (n : node)
  : option interface :=
  match l with
  | [] => None
  | (m, i) :: r => if node_beq m n then Some i else interface_of r n
  end.

(** The two builders. *)
Inductive builder : Type :=
| enhance_and_skullstrip (omp_nthreads : nat)
| skullstrip.

Definition build (b : builder) : workflow :=
  match b with
  | enhance_and_skullstrip omp_nthreads =>
      init_enhance_and_skullstrip_bold_wf omp_nthreads
  | skullstrip => init_skullstrip_bold_wf
  end.

(** An order in which the nodes can run. *)
Definition rank (n : node) : nat :=
  match n with
  | inputnode => 0
  | n4_correct => 1
  | skullstrip_first_pass => 2
  | unifize => 3
  | skullstrip_second_pass => 4
  | combine_masks => 5
  | apply_mask => 6
  | mask_reportlet => 6
  | copy_xform => 7
  | outputnode => 8
  end.

Definition depth : nat := 9.

Definition eval (w : workflow) (fuel : nat) (n : node) (f : string)
  : option (Dataflow.term node) :=
  Dataflow.eval_out node_beq (graph_of w) fuel n f.

(** The value that reaches input [f] of node [n]. *)
Definition eval_in (w : workflow) (fuel : nat) (n : node) (f : string)
  : option (Dataflow.term node) :=
  match Dataflow.source_of node_beq (graph_of w) n f with
  | Some (src, sf) => eval w fuel src sf
  | None => None
  end.

(** The mask both workflows compute: the product of the mask of the first
    pass and of the output of the second pass. *)
Definition combined_mask (first_mask second_out : Dataflow.term node)
  : Dataflow.term node :=
  Dataflow.Run combine_masks "out_file"
               [("in_file", first_mask); ("operand_file", second_out)].

End Skullstrip.

(** ** The structure of the registration workflows *)

Module Structure.

Open Scope string_scope.

(** An order in which the nodes of [init_bbreg_wf] and [init_fsl_bbr_wf]
    can run. *)
Definition rank (n : Engine.node) : nat :=
  match n with
  | Engine.inputnode => 0
  | Engine.wm_mask => 1
  | Engine.mri_coreg => 1
  | Engine.flt_bbr_init => 1
  | Engine.bbregister => 2
  | Engine.flt_bbr => 2
  | Engine.transforms => 3
  | Engine.reports => 3
  | Engine.compare_transforms => 3
  | Engine.select_transform => 4
  | Engine.select_report => 4
  | Engine.lta_convert => 4
  | Engine.lta_concat => 5
  | Engine.invt_bbr => 5
  | Engine.lta2fsl_fwd => 6
  | Engine.lta2fsl_inv => 6
  | Engine.fsl2itk_fwd => 7
  | Engine.fsl2itk_inv => 7
  | Engine.outputnode => 8
  end.

(** The input of the refined registration that takes an initial transform. *)
Definition init_field (s : Engine.strategy) : string :=
  match s with
  | Engine.BBRegister => "init_reg_file"
  | Engine.FSL_BBR => "in_matrix_file"
  end.

(** The fields [IdentityInterface] nodes have, for the check of the
    connections. *)
Definition role_of_interface (i : Engine.interface) : Dataflow.role :=
  match i with
  | Engine.IdentityInterface fields => Dataflow.Identity fields
  | _ => Dataflow.Tool
  end.

Definition graph_of (w : Engine.workflow) : Dataflow.graph Engine.node := {|
  Dataflow.roles := map (fun p : Engine.node * Engine.interface =>
                           (fst p, role_of_interface (snd p)))
                        (Engine.nodes w);
  Dataflow.wires := Engine.connections w
|}.

(** Does node [n] occur in a value, as the program that produced it or a
    part of it? *)
Fixpoint produced_by (n : Engine.node) (v : Engine.value) : bool :=
  match v with
  | Engine.VOut m _ => Engine.node_beq m n
  | Engine.VBool _ => false
  | Engine.VList l => existsb (produced_by n) l
  | Engine.VApp m _ args =>
      Engine.node_beq m n
      || (fix go (a : list (string * Engine.value)) : bool :=
            match a with
            | [] => false
            | (_, x) :: r => produced_by n x || go r
            end) args
  end.

End Structure.

(** ** Matrix algebra *)

Ltac split_arrays :=
  unfold mat44, mat33, vec4, vec3 in *;
  repeat match goal with
         | x : (_ * _)%type |- _ => destruct x
         end.

Ltac array_eq :=
  repeat match goal with
         | |- (_, _) = (_, _) => apply f_equal2
         end.

Ltac unfold_arrays :=
  cbv beta iota zeta delta
      [dot dot4 dot3 transpose eye4 eye3 affine translation linear_block
       ones zeros fst snd].

Ltac array_ring :=
  intros; split_arrays; unfold_arrays; array_eq; ring.

Lemma dot_assoc (A B C : mat44) : dot (dot A B) C = dot A (dot B C).
Proof. array_ring. Qed.

Lemma dot_eye_l (A : mat44) : dot eye4 A = A.
Proof. array_ring. Qed.

Lemma dot_eye_r (A : mat44) : dot A eye4 = A.
Proof. array_ring. Qed.

Lemma transpose_dot (A B : mat44) :
  transpose (dot A B) = dot (transpose B) (transpose A).
Proof. array_ring. Qed.

Lemma transpose_involutive (A : mat44) : transpose (transpose A) = A.
Proof. array_ring. Qed.

Lemma penrose_eye : penrose eye4 eye4.
Proof. repeat split; array_ring. Qed.

(** An inverse satisfies the Penrose equations. *)
Lemma penrose_inverse (A B : mat44) :
  dot A B = eye4 -> dot B A = eye4 -> penrose A B.
Proof.
  intros HAB HBA. unfold penrose.
  rewrite HAB, HBA, dot_eye_l, dot_eye_l.
  repeat split; array_ring.
Qed.

(** The Penrose equations have at most one solution. *)
Lemma penrose_unique (A X Y : mat44) : penrose A X -> penrose A Y -> X = Y.
Proof.
  intros (X1 & X2 & X3 & X4) (Y1 & Y2 & Y3 & Y4).
  assert (S1 : dot (transpose X) (transpose A) = dot A X)
    by (rewrite <- transpose_dot; exact X3).
  assert (S2 : dot (transpose A) (dot A Y) = transpose A)
    by (rewrite <- Y3, <- transpose_dot, Y1; reflexivity).
  assert (T1 : dot (transpose A) (transpose X) = dot X A)
    by (rewrite <- transpose_dot; exact X4).
  assert (T2 : dot (dot Y A) (transpose A) = transpose A)
    by (rewrite <- Y4, <- transpose_dot, <- dot_assoc, Y1; reflexivity).
  assert (HL : dot A X = dot A Y).
  { rewrite <- S1. rewrite <- S2. rewrite <- dot_assoc, S1.
    rewrite <- dot_assoc, X1. reflexivity. }
  assert (HR : dot X A = dot Y A).
  { rewrite <- T1. rewrite <- T2. rewrite dot_assoc, T1.
    rewrite dot_assoc, <- (dot_assoc A X A), X1. reflexivity. }
  rewrite <- X2, HR, dot_assoc, HL, <- dot_assoc. exact Y2.
Qed.

(** On a matrix with an inverse the pseudo-inverse composes to the identity. *)
Lemma penrose_invertible (A X : mat44) :
  invertible A -> penrose A X -> dot A X = eye4 /\ dot X A = eye4.
Proof.
  intros (B & HAB & HBA) HX.
  assert (X = B) as ->.
  { apply (penrose_unique HX). apply penrose_inverse; assumption. }
  split; assumption.
Qed.

Lemma exact_pinv (A X : mat44) : penrose A X -> Exact.pinv A = inr X.
Proof.
  intros HX. unfold Exact.pinv. f_equal.
  apply (fun H => penrose_unique H HX).
  apply epsilon_spec. exists X. exact HX.
Qed.

(** ** Runs of compare_xforms *)

Lemma gt_true (x y : R) : gt x y = true <-> x > y.
Proof. unfold gt. destruct (Rlt_dec y x); split; intros; lra || congruence. Qed.

Lemma gt_false (x y : R) : gt x y = false <-> x <= y.
Proof. unfold gt. destruct (Rlt_dec y x); split; intros; lra || congruence. Qed.

Lemma gate_true (s r m : R) :
  gate s r m = true <-> s > 5 \/ r > PI / 36 \/ m > 1.1.
Proof.
  unfold gate. rewrite !orb_true_iff, !gt_true. tauto.
Qed.

Lemma gate_false (s r m : R) :
  gate s r m = false <-> s <= 5 /\ r <= PI / 36 /\ m <= 1.1.
Proof.
  unfold gate. rewrite !orb_false_iff, !gt_false. tauto.
Qed.

(** When every routine returns, the run prints the metrics once and returns
    the gate's verdict on them. *)
Lemma compare_xforms_returns
      (np : library) (test_mat fallback_mat : Engine.value) (out : stdout)
      (mat1 mat2 P : mat44) (trans : vec3) (rotation_matrix : mat33)
      (scales shears direction : vec3) (angle : R) :
  loadtxt np fallback_mat = inr mat1 ->
  loadtxt np test_mat = inr mat2 ->
  pinv np mat1 = inr P ->
  decompose44 np (dot mat2 P) = inr (trans, rotation_matrix, scales, shears) ->
  mat2axangle np rotation_matrix = inr (direction, angle) ->
  compare_xforms np test_mat fallback_mat out =
  (inr (gate (sqrt (dot3 trans trans)) angle (np_max (np_abs scales))),
   out ++ [(metrics_format,
            [sqrt (dot3 trans trans); angle * 180 / PI;
             np_max (np_abs scales)])]).
Proof.
  intros H1 H2 H3 H4 H5.
  unfold compare_xforms, bind, call, print, ret.
  rewrite H1, H2, H3, H4, H5. reflexivity.
Qed.

(** A run that returns went through every routine. *)
Lemma compare_xforms_inv
      (np : library) (test_mat fallback_mat : Engine.value) (out out' : stdout)
      (b : bool) :
  compare_xforms np test_mat fallback_mat out = (inr b, out') ->
  exists mat1 mat2 P trans rotation_matrix scales shears direction angle,
    loadtxt np fallback_mat = inr mat1 /\
    loadtxt np test_mat = inr mat2 /\
    pinv np mat1 = inr P /\
    decompose44 np (dot mat2 P) = inr (trans, rotation_matrix, scales, shears) /\
    mat2axangle np rotation_matrix = inr (direction, angle) /\
    b = gate (sqrt (dot3 trans trans)) angle (np_max (np_abs scales)) /\
    out' = out ++ [(metrics_format,
                    [sqrt (dot3 trans trans); angle * 180 / PI;
                     np_max (np_abs scales)])].
Proof.
  unfold compare_xforms, bind, call, print, ret.
  destruct (loadtxt np fallback_mat) as [e|mat1] eqn:H1; [discriminate|].
  destruct (loadtxt np test_mat) as [e|mat2] eqn:H2; [discriminate|].
  destruct (pinv np mat1) as [e|P] eqn:H3; [discriminate|].
  destruct (decompose44 np (dot mat2 P)) as [e|[[[t Rm] sc] sh]] eqn:H4;
    [discriminate|].
  destruct (mat2axangle np Rm) as [e|[dir a]] eqn:H5; [discriminate|].
  intros H. injection H as Hb Ho.
  exists mat1, mat2, P, t, Rm, sc, sh, dir, a.
  repeat split; auto.
Qed.

(** A run that raises stops at the first routine that raised: the exception
    is that routine's, and nothing was printed. *)
Lemma compare_xforms_raises
      (np : library) (test_mat fallback_mat : Engine.value) (out out' : stdout)
      (e : exn) :
  compare_xforms np test_mat fallback_mat out = (inl e, out') ->
  out' = out /\
  (loadtxt np fallback_mat = inl e \/
   exists mat1, loadtxt np fallback_mat = inr mat1 /\
     (loadtxt np test_mat = inl e \/
      exists mat2, loadtxt np test_mat = inr mat2 /\
        (pinv np mat1 = inl e \/
         exists P, pinv np mat1 = inr P /\
           (decompose44 np (dot mat2 P) = inl e \/
            exists trans rotation_matrix scales shears,
              decompose44 np (dot mat2 P) =
                inr (trans, rotation_matrix, scales, shears) /\
              mat2axangle np rotation_matrix = inl e)))).
Proof.
  unfold compare_xforms, bind, call, print, ret.
  destruct (loadtxt np fallback_mat) as [e1|mat1] eqn:H1.
  { intros H; injection H as -> ->. auto. }
  destruct (loadtxt np test_mat) as [e2|mat2] eqn:H2.
  { intros H; injection H as -> ->. split; [trivial|].
    right. exists mat1. auto. }
  destruct (pinv np mat1) as [e3|P] eqn:H3.
  { intros H; injection H as -> ->. split; [trivial|].
    right. exists mat1. split; [trivial|]. right. exists mat2. auto. }
  destruct (decompose44 np (dot mat2 P)) as [e4|[[[t Rm] sc] sh]] eqn:H4.
  { intros H; injection H as -> ->. split; [trivial|].
    right. exists mat1. split; [trivial|]. right. exists mat2.
    split; [trivial|]. right. exists P. auto. }
  destruct (mat2axangle np Rm) as [e5|[dir a]] eqn:H5.
  { intros H; injection H as -> ->. split; [trivial|].
    right. exists mat1. split; [trivial|]. right. exists mat2.
    split; [trivial|]. right. exists P. split; [trivial|]. right.
    exists t, Rm, sc, sh. split; trivial. }
  discriminate.
Qed.

(** ** Evaluation of a workflow *)

Section EvalFacts.

Variable cmp : Engine.value -> Engine.value -> option bool.
Variable w : Engine.workflow.

Lemma sequence_mono
      (g1 g2 : Engine.node -> string -> option Engine.value)
      (l : list (Engine.node * string * string))
      (args : list (string * Engine.value)) :
  (forall n f v, g1 n f = Some v -> g2 n f = Some v) ->
  Engine.sequence
    (map (fun e : Engine.node * string * string =>
            let '(src, sf, df) := e in (df, g1 src sf)) l) = Some args ->
  Engine.sequence
    (map (fun e : Engine.node * string * string =>
            let '(src, sf, df) := e in (df, g2 src sf)) l) = Some args.
Proof.
  intros Hg. revert args.
  induction l as [|[[src sf] df] l IH]; intros args; simpl; [trivial|].
  destruct (g1 src sf) as [v|] eqn:E1; [|discriminate].
  rewrite (Hg _ _ _ E1).
  destruct (Engine.sequence (map _ l)) as [r|] eqn:E2; [|discriminate].
  rewrite (IH r eq_refl). trivial.
Qed.

(** More evaluation steps never change a value already reached. *)
Lemma eval_out_mono (k : nat) :
  forall n f v,
    Engine.eval_out cmp w k n f = Some v ->
    Engine.eval_out cmp w (S k) n f = Some v.
Proof.
  induction k as [|k IH]; intros n f v H; [discriminate|].
  change (Engine.eval_out cmp w (S (S k)) n f) with
    (match Engine.interface_of (Engine.nodes w) n with
     | None => None
     | Some (Engine.MRICoregRPT _) | Some (Engine.BBRegisterRPT _)
     | Some (Engine.FLIRTRPT _ _) => Some (Engine.VOut n f)
     | Some (Engine.IdentityInterface fields) =>
         if existsb (String.eqb f) fields
         then match Engine.source_of w n f with
              | Some (src, sf) => Engine.eval_out cmp w (S k) src sf
              | None => Some (Engine.VOut n f)
              end
         else None
     | Some i =>
         match Engine.sequence
                 (map (fun e : Engine.node * string * string =>
                         let '(src, sf, df) := e in
                         (df, Engine.eval_out cmp w (S k) src sf))
                      (Engine.incoming w n)) with
         | None => None
         | Some args =>
             match i with
             | Engine.Merge numinputs =>
                 Some (Engine.VList (Engine.merge_out numinputs args))
             | Engine.Select => Engine.select_out args
             | Engine.Function fn => Engine.run_function cmp fn n f args
             | _ => Some (Engine.VApp n f args)
             end
         end
     end).
  simpl in H.
  destruct (Engine.interface_of (Engine.nodes w) n) as [i|]; [|discriminate].
  destruct i;
    try (destruct (Engine.sequence _) as [args|] eqn:E in H; [|discriminate];
         rewrite (sequence_mono _ _ _ IH E); exact H);
    try exact H.
  destruct (existsb _ fields); [|discriminate].
  destruct (Engine.source_of w n f) as [[src sf]|]; [|exact H].
  apply IH. exact H.
Qed.

Lemma eval_out_le (k k' : nat) (n : Engine.node) (f : string)
      (v : Engine.value) :
  (k <= k')%nat ->
  Engine.eval_out cmp w k n f = Some v ->
  Engine.eval_out cmp w k' n f = Some v.
Proof.
  induction 1 as [|k' Hle IH]; intros H; [exact H|].
  apply eval_out_mono. apply IH. exact H.
Qed.

Lemma eval_in_le (k k' : nat) (n : Engine.node) (f : string)
      (v : Engine.value) :
  (k <= k')%nat ->
  Engine.eval_in cmp w k n f = Some v ->
  Engine.eval_in cmp w k' n f = Some v.
Proof.
  unfold Engine.eval_in. intros Hle.
  destruct (Engine.source_of w n f) as [[src sf]|]; [|discriminate].
  apply eval_out_le. exact Hle.
Qed.

End EvalFacts.

(** ** The wiring of the two workflows *)

Import Engine.
Open Scope string_scope.

(** C1: whatever the verdict, [select_transform] and [select_report] take
    their index from the same output of [compare_transforms]; each returns
    the element of its list at [1 if reject_refined else 0], and the selected
    transform and the selected report (also the [out_report] output) are
    files of the same registration. *)
Theorem selection_shares_index
        (s : strategy) (bold2t1w_dof omp_nthreads fuel : nat)
        (cmp : value -> value -> option bool) (reject_refined : bool) :
  cmp (VOut (refined s) (xfm_field s)) (VOut (fallback s) (xfm_field s))
  = Some reject_refined ->
  (depth <= fuel)%nat ->
  let w := build s bold2t1w_dof omp_nthreads in
  let index := index_of_bool reject_refined in
  source_of w select_transform "index" = Some (compare_transforms, "out") /\
  source_of w select_report "index" = Some (compare_transforms, "out") /\
  eval_in cmp w fuel select_transform "index" = Some (VBool reject_refined) /\
  eval_in cmp w fuel select_report "index" = Some (VBool reject_refined) /\
  (exists xs rs st sr,
      eval_in cmp w fuel select_transform "inlist" = Some (VList xs) /\
      eval_in cmp w fuel select_report "inlist" = Some (VList rs) /\
      nth_error xs index = Some st /\
      nth_error rs index = Some sr /\
      eval_out cmp w fuel select_transform "out" = Some st /\
      eval_out cmp w fuel select_report "out" = Some sr /\
      eval_out cmp w fuel outputnode "out_report" = Some sr /\
      st = VOut (chosen s reject_refined) (xfm_field s) /\
      sr = VOut (chosen s reject_refined) "out_report" /\
      origin st = origin sr).
Proof.
  intros Hcmp Hfuel w index.
  repeat split; try (destruct s; reflexivity).
  - apply eval_in_le with (k := depth); [exact Hfuel|].
    destruct s; vm_compute in Hcmp; vm_compute; rewrite Hcmp; reflexivity.
  - apply eval_in_le with (k := depth); [exact Hfuel|].
    destruct s; vm_compute in Hcmp; vm_compute; rewrite Hcmp; reflexivity.
  - exists [VOut (refined s) (xfm_field s); VOut (fallback s) (xfm_field s)],
           [VOut (refined s) "out_report"; VOut (fallback s) "out_report"],
           (VOut (chosen s reject_refined) (xfm_field s)),
           (VOut (chosen s reject_refined) "out_report").
    repeat split;
      try (apply eval_in_le with (k := depth); [exact Hfuel|]);
      try (apply eval_out_le with (k := depth); [exact Hfuel|]);
      try (destruct s, reject_refined; reflexivity);
      destruct s; vm_compute in Hcmp; vm_compute; rewrite Hcmp;
      destruct reject_refined; reflexivity.
Qed.

Lemma selection_shares_index_witness :
  let w := build BBRegister 9 1 in
  eval_out (fun _ _ => Some true) w depth select_transform "out"
  = Some (VOut mri_coreg "out_lta_file") /\
  eval_out (fun _ _ => Some true) w depth select_report "out"
  = Some (VOut mri_coreg "out_report").
Proof.
  destruct (@selection_shares_index BBRegister 9 1 depth
              (fun _ _ => Some true) true eq_refl (le_n depth))
    as (_ & _ & _ & _ & xs & rs & st & sr & _ & _ & _ & _ & Ht & Hr & _ & Est
        & Esr & _).
  subst st sr. split; [exact Ht | exact Hr].
Defined.

(** C9: in both workflows the refined registration feeds [in1] and the
    fallback registration [in2] of both [transforms] and [reports], so the
    lists the selectors index hold the refined candidate at 0 and the
    fallback at 1; and the files [compare_transforms] is given as [test_mat]
    and [fallback_mat] are the two files of the [transforms] list. *)
Theorem candidates_in_order
        (s : strategy) (bold2t1w_dof omp_nthreads fuel : nat)
        (cmp : value -> value -> option bool) :
  (depth <= fuel)%nat ->
  let w := build s bold2t1w_dof omp_nthreads in
  let refined_xfm := VOut (refined s) (xfm_field s) in
  let fallback_xfm := VOut (fallback s) (xfm_field s) in
  source_of w transforms "in1" = Some (refined s, xfm_field s) /\
  source_of w transforms "in2" = Some (fallback s, xfm_field s) /\
  source_of w reports "in1" = Some (refined s, "out_report") /\
  source_of w reports "in2" = Some (fallback s, "out_report") /\
  source_of w compare_transforms "test_mat" = source_of w transforms "in1" /\
  source_of w compare_transforms "fallback_mat"
  = source_of w transforms "in2" /\
  eval_in cmp w fuel select_transform "inlist"
  = Some (VList [refined_xfm; fallback_xfm]) /\
  eval_in cmp w fuel select_report "inlist"
  = Some (VList [VOut (refined s) "out_report";
                 VOut (fallback s) "out_report"]) /\
  eval_in cmp w fuel compare_transforms "test_mat" = Some refined_xfm /\
  eval_in cmp w fuel compare_transforms "fallback_mat" = Some fallback_xfm.
Proof.
  intros Hfuel w refined_xfm fallback_xfm.
  repeat split; try (destruct s; reflexivity);
    (apply eval_in_le with (k := depth); [exact Hfuel|]);
    destruct s; reflexivity.
Qed.

Lemma candidates_in_order_witness :
  eval_in (fun _ _ => Some false) (build FSL_BBR 6 1) depth
          select_transform "inlist"
  = Some (VList [VOut flt_bbr "out_matrix_file";
                 VOut flt_bbr_init "out_matrix_file"]).
Proof.
  exact (proj1 (proj2 (proj2 (proj2 (proj2 (proj2 (proj2
    (@candidates_in_order FSL_BBR 6 1 depth (fun _ _ => Some false)
                          (le_n depth))))))))).
Defined.

(** C10: in both workflows [itk_bold_to_t1] and [itk_t1_to_bold] are both
    computed from the output of [select_transform]: the file of the chosen
    registration occurs in both, the file of the other one in neither; the
    forward output went through no inverting node and the inverse output
    through exactly one ([lta2fsl_inv], respectively [invt_bbr]). *)
Theorem exported_transforms_follow_selection
        (s : strategy) (bold2t1w_dof omp_nthreads fuel : nat)
        (cmp : value -> value -> option bool) (reject_refined : bool) :
  cmp (VOut (refined s) (xfm_field s)) (VOut (fallback s) (xfm_field s))
  = Some reject_refined ->
  (depth <= fuel)%nat ->
  let w := build s bold2t1w_dof omp_nthreads in
  eval_out cmp w fuel select_transform "out"
  = Some (VOut (chosen s reject_refined) (xfm_field s)) /\
  match s with
  | BBRegister =>
      source_of w lta_concat "in_lta1" = Some (select_transform, "out") /\
      source_of w lta2fsl_fwd "in_lta" = Some (lta_concat, "out_file") /\
      source_of w lta2fsl_inv "in_lta" = Some (lta_concat, "out_file") /\
      source_of w fsl2itk_fwd "transform_file" = Some (lta2fsl_fwd, "out_fsl") /\
      source_of w fsl2itk_inv "transform_file" = Some (lta2fsl_inv, "out_fsl")
  | FSL_BBR =>
      source_of w fsl2itk_fwd "transform_file" = Some (select_transform, "out") /\
      source_of w invt_bbr "in_file" = Some (select_transform, "out") /\
      source_of w fsl2itk_inv "transform_file" = Some (invt_bbr, "out_file")
  end /\
  source_of w outputnode "itk_bold_to_t1" = Some (fsl2itk_fwd, "itk_transform") /\
  source_of w outputnode "itk_t1_to_bold" = Some (fsl2itk_inv, "itk_transform") /\
  exists fwd inv,
    eval_out cmp w fuel outputnode "itk_bold_to_t1" = Some fwd /\
    eval_out cmp w fuel outputnode "itk_t1_to_bold" = Some inv /\
    mentions (chosen s reject_refined) (xfm_field s) fwd = true /\
    mentions (chosen s reject_refined) (xfm_field s) inv = true /\
    mentions (unchosen s reject_refined) (xfm_field s) fwd = false /\
    mentions (unchosen s reject_refined) (xfm_field s) inv = false /\
    inversions w fwd = 0%nat /\
    inversions w inv = 1%nat.
Proof.
  intros Hcmp Hfuel w.
  assert (Hsel : eval_out cmp w depth select_transform "out"
                 = Some (VOut (chosen s reject_refined) (xfm_field s))).
  { destruct s; vm_compute in Hcmp; vm_compute; rewrite Hcmp;
      destruct reject_refined; reflexivity. }
  split; [apply eval_out_le with (k := depth); assumption|].
  split; [destruct s; repeat split; reflexivity|].
  split; [destruct s; reflexivity|].
  split; [destruct s; reflexivity|].
  destruct (eval_out cmp w depth outputnode "itk_bold_to_t1") as [fwd|] eqn:Ef.
  2:{ exfalso. revert Ef. subst w.
      destruct s; vm_compute in Hcmp; vm_compute; rewrite Hcmp;
        destruct reject_refined; vm_compute; discriminate. }
  destruct (eval_out cmp w depth outputnode "itk_t1_to_bold") as [inv|] eqn:Ei.
  2:{ exfalso. revert Ei. subst w.
      destruct s; vm_compute in Hcmp; vm_compute; rewrite Hcmp;
        destruct reject_refined; vm_compute; discriminate. }
  exists fwd, inv.
  split; [apply eval_out_le with (k := depth); assumption|].
  split; [apply eval_out_le with (k := depth); assumption|].
  revert Ef Ei. subst w.
  destruct s; vm_compute in Hcmp; vm_compute; rewrite Hcmp;
    destruct reject_refined; vm_compute; intros Ef Ei;
    injection Ef as <-; injection Ei as <-;
    repeat split; reflexivity.
Qed.

Lemma exported_transforms_follow_selection_witness :
  eval_out (fun _ _ => Some true) (build FSL_BBR 9 1) depth
           select_transform "out"
  = Some (VOut flt_bbr_init "out_matrix_file").
Proof.
  exact (proj1 (@exported_transforms_follow_selection FSL_BBR 9 1 depth
                  (fun _ _ => Some true) true eq_refl (le_n depth))).
Defined.

(** ** The reference library on simple matrices *)

Open Scope R_scope.

Lemma sqrt_sq (x : R) : 0 < x -> sqrt (x * x) = x.
Proof. intros Hx. apply sqrt_square. lra. Qed.

Ltac real_simpl :=
  repeat (rewrite ?Rmult_0_l, ?Rmult_0_r, ?Rplus_0_l, ?Rplus_0_r,
            ?Rminus_0_r, ?Rmult_1_l, ?Rmult_1_r, ?Rminus_diag; unfold Rdiv;
          rewrite ?Rmult_0_l, ?Rmult_0_r).

Lemma eqb0_false (x : R) : 0 < x -> Exact.eqb0 x = false.
Proof.
  intros Hx. unfold Exact.eqb0. destruct (Req_dec_T x 0); [lra|reflexivity].
Qed.

(** A linear block that only scales the axes, by positive factors, has the
    identity as rotation, these factors as scales and no shear. *)
Lemma exact_decompose44_diag (sx sy sz t0 t1 t2 : R) (last : vec4) :
  0 < sx -> 0 < sy -> 0 < sz ->
  Exact.decompose44 ((sx, 0, 0, t0), (0, sy, 0, t1), (0, 0, sz, t2), last) =
  inr ((t0, t1, t2), eye3, (sx, sy, sz), zeros).
Proof.
  intros Hx Hy Hz.
  unfold Exact.decompose44.
  cbv beta iota zeta delta
      [dot3 Exact.div3 Exact.sub3 Exact.add3 Exact.scale3].
  real_simpl.
  rewrite (sqrt_sq Hx), (Rinv_r sx) by lra.
  real_simpl.
  rewrite (sqrt_sq Hy), (Rinv_r sy) by lra.
  real_simpl.
  rewrite (sqrt_sq Hz), (Rinv_r sz) by lra.
  rewrite !eqb0_false by assumption.
  cbv beta iota zeta delta [orb Exact.of_columns det3].
  destruct (Rlt_dec _ 0) as [Hneg|_]; [exfalso; lra|reflexivity].
Qed.

Lemma exact_decompose44_translation (t : vec3) :
  Exact.decompose44 (translation t) = inr (t, eye3, ones, zeros).
Proof.
  destruct t as [[t0 t1] t2].
  apply (@exact_decompose44_diag 1 1 1 t0 t1 t2 (0, 0, 0, 1)); lra.
Qed.

Lemma exact_mat2axangle_eye3 :
  exists direction, Exact.mat2axangle eye3 = inr (direction, 0).
Proof.
  unfold Exact.mat2axangle, eye3, Exact.trace3.
  replace ((1 + 1 + 1 - 1) / 2) with 1 by lra.
  rewrite acos_1. eexists. reflexivity.
Qed.

Lemma disk_refined (s : strategy) (refined_mat fallback_mat : mat44) :
  Exact.disk s refined_mat fallback_mat (VOut (refined s) (xfm_field s))
  = inr refined_mat.
Proof. destruct s; reflexivity. Qed.

Lemma disk_fallback (s : strategy) (refined_mat fallback_mat : mat44) :
  Exact.disk s refined_mat fallback_mat (VOut (fallback s) (xfm_field s))
  = inr fallback_mat.
Proof. destruct s; reflexivity. Qed.

(** The metrics of a shift, a rotation angle of 0 and unit scales. *)
Lemma max_scale_ones : np_max (np_abs ones) = 1.
Proof.
  unfold np_max, np_abs, ones. rewrite Rabs_R1.
  unfold Rmax. repeat destruct (Rle_dec _ _); lra.
Qed.

Lemma shift_zeros : sqrt (dot3 zeros zeros) = 0.
Proof.
  unfold dot3, zeros. replace (0 * 0 + 0 * 0 + 0 * 0) with 0 by ring.
  apply sqrt_0.
Qed.

(** ** The quality gate *)

Lemma gate_unit (s : R) : gate s 0 (np_max (np_abs ones)) = gt s 5.
Proof.
  unfold gate. rewrite max_scale_ones.
  assert (H0 : gt 0 (PI / 36) = false)
    by (apply gt_false; pose proof PI_RGT_0; lra).
  assert (H1 : gt 1 1.1 = false) by (apply gt_false; lra).
  rewrite H0, H1, !orb_false_r. reflexivity.
Qed.

(** C2: a run that returns, returns [true] exactly when the shift it printed
    exceeds 5, or the rotation exceeds PI/36, or the largest scale exceeds
    1.1, all three strictly.  With the identity as fallback matrix and a pure
    translation [t] as refined matrix the verdict is [|t| > 5]: a translation
    of length exactly 5 is kept, one of length 5.0001 is rejected.  (The
    routines are asked to return the pseudo-inverse of the identity, the
    decomposition of a pure translation and the angle 0 of the identity
    rotation.) *)
Theorem gate_thresholds
        (np : library) (test_mat fallback_mat : value) (out : stdout) :
  (forall (b : bool) (out' : stdout),
      compare_xforms np test_mat fallback_mat out = (inr b, out') ->
      exists shift_magnitude rot max_scale,
        out' = (out ++ [(metrics_format,
                         [shift_magnitude; rot * 180 / PI; max_scale])])%list /\
        (b = true <->
         shift_magnitude > 5 \/ rot > PI / 36 \/ max_scale > 1.1)) /\
  (forall (t : vec3) (P : mat44) (direction : vec3),
      loadtxt np fallback_mat = inr eye4 ->
      loadtxt np test_mat = inr (translation t) ->
      pinv np eye4 = inr P ->
      penrose eye4 P ->
      decompose44 np (translation t) = inr (t, eye3, ones, zeros) ->
      mat2axangle np eye3 = inr (direction, 0) ->
      returned (compare_xforms np test_mat fallback_mat out)
      = Some (gt (sqrt (dot3 t t)) 5) /\
      (sqrt (dot3 t t) = 5 ->
       returned (compare_xforms np test_mat fallback_mat out) = Some false) /\
      (sqrt (dot3 t t) = 5.0001 ->
       returned (compare_xforms np test_mat fallback_mat out) = Some true)).
Proof.
  split.
  - intros b out' Hrun.
    destruct (compare_xforms_inv _ _ _ _ Hrun)
      as (mat1 & mat2 & P & t & Rm & sc & sh & dir & a & _ & _ & _ & _ & _
          & Hb & Hout).
    exists (sqrt (dot3 t t)), a, (np_max (np_abs sc)).
    split; [exact Hout|]. rewrite Hb. apply gate_true.
  - intros t P direction Hfb Htest Hpinv HP Hdec Hax.
    assert (P = eye4) as -> by (apply (penrose_unique HP penrose_eye)).
    assert (Hrun : returned (compare_xforms np test_mat fallback_mat out)
                   = Some (gt (sqrt (dot3 t t)) 5)).
    { rewrite (@compare_xforms_returns np test_mat fallback_mat out
                 eye4 (translation t) eye4 t eye3 ones zeros direction 0);
        trivial.
      - unfold returned. cbn [fst]. rewrite gate_unit. reflexivity.
      - rewrite dot_eye_r. exact Hdec. }
    split; [exact Hrun|]. rewrite Hrun.
    split; intros Hlen; rewrite Hlen; f_equal.
    + apply gt_false. lra.
    + apply gt_true. lra.
Qed.

Lemma gate_thresholds_witness :
  returned
    (compare_xforms (Exact.lib FSL_BBR (translation (3, 4, 0)) eye4)
                    (VOut flt_bbr "out_matrix_file")
                    (VOut flt_bbr_init "out_matrix_file") [])
  = Some false /\
  returned
    (compare_xforms (Exact.lib FSL_BBR (translation (5.0001, 0, 0)) eye4)
                    (VOut flt_bbr "out_matrix_file")
                    (VOut flt_bbr_init "out_matrix_file") [])
  = Some true.
Proof.
  destruct exact_mat2axangle_eye3 as [direction Hax].
  split.
  - refine (proj1 (proj2
      (proj2 (@gate_thresholds
                (Exact.lib FSL_BBR (translation (3, 4, 0)) eye4)
                (VOut flt_bbr "out_matrix_file")
                (VOut flt_bbr_init "out_matrix_file") [])
             (3, 4, 0) eye4 direction eq_refl eq_refl
             (exact_pinv penrose_eye) penrose_eye
             (exact_decompose44_translation (3, 4, 0)) Hax)) _).
    unfold dot3. replace (3 * 3 + 4 * 4 + 0 * 0) with (5 * 5) by ring.
    apply sqrt_square. lra.
  - refine (proj2 (proj2
      (proj2 (@gate_thresholds
                (Exact.lib FSL_BBR (translation (5.0001, 0, 0)) eye4)
                (VOut flt_bbr "out_matrix_file")
                (VOut flt_bbr_init "out_matrix_file") [])
             (5.0001, 0, 0) eye4 direction eq_refl eq_refl
             (exact_pinv penrose_eye) penrose_eye
             (exact_decompose44_translation (5.0001, 0, 0)) Hax)) _).
    unfold dot3.
    replace (5.0001 * 5.0001 + 0 * 0 + 0 * 0) with (5.0001 * 5.0001) by ring.
    apply sqrt_square. lra.
Defined.

(** C3: comparing a matrix with an inverse against itself composes to the
    identity matrix; the run then prints a shift of 0, a rotation of 0 and a
    largest scale of 1 and returns [false].  (The routines are asked to
    return a pseudo-inverse, the decomposition of the identity and the angle
    0 of the identity rotation; the equalities are those of exact
    arithmetic.) *)
Theorem identity_comparison
        (np : library) (test_mat fallback_mat : value) (out : stdout)
        (mat P : mat44) (direction : vec3) :
  loadtxt np fallback_mat = inr mat ->
  loadtxt np test_mat = inr mat ->
  invertible mat ->
  pinv np mat = inr P ->
  penrose mat P ->
  decompose44 np eye4 = inr (zeros, eye3, ones, zeros) ->
  mat2axangle np eye3 = inr (direction, 0) ->
  dot mat P = eye4 /\
  compare_xforms np test_mat fallback_mat out
  = (inr false, (out ++ [(metrics_format, [0; 0; 1])])%list).
Proof.
  intros Hfb Htest Hinv Hpinv HP Hdec Hax.
  destruct (penrose_invertible Hinv HP) as [Hcomp _].
  split; [exact Hcomp|].
  rewrite (@compare_xforms_returns np test_mat fallback_mat out
             mat mat P zeros eye3 ones zeros direction 0); trivial.
  - rewrite gate_unit, shift_zeros, max_scale_ones.
    replace (0 * 180 / PI) with 0 by (unfold Rdiv; ring).
    assert (H : gt 0 5 = false) by (apply gt_false; lra).
    rewrite H. reflexivity.
  - rewrite Hcomp. exact Hdec.
Qed.

Lemma translation_inverse (t0 t1 t2 : R) :
  dot (translation (t0, t1, t2)) (translation (- t0, - t1, - t2)) = eye4 /\
  dot (translation (- t0, - t1, - t2)) (translation (t0, t1, t2)) = eye4.
Proof. split; array_ring. Qed.

Lemma identity_comparison_witness :
  compare_xforms
    (Exact.lib FSL_BBR (translation (1, 2, 3)) (translation (1, 2, 3)))
    (VOut flt_bbr "out_matrix_file") (VOut flt_bbr_init "out_matrix_file") []
  = (inr false, [(metrics_format, [0; 0; 1])]).
Proof.
  destruct exact_mat2axangle_eye3 as [direction Hax].
  destruct (translation_inverse 1 2 3) as [Hl Hr].
  exact (proj2
    (@identity_comparison
       (Exact.lib FSL_BBR (translation (1, 2, 3)) (translation (1, 2, 3)))
       (VOut flt_bbr "out_matrix_file") (VOut flt_bbr_init "out_matrix_file")
       [] (translation (1, 2, 3)) (translation (- (1), - (2), - (3)))
       direction eq_refl eq_refl
       (ex_intro _ _ (conj Hl Hr))
       (exact_pinv (@penrose_inverse _ _ Hl Hr)) (@penrose_inverse _ _ Hl Hr)
       (exact_decompose44_translation zeros) Hax)).
Defined.

(** ** The relative transform *)

(** C4: the matrix that is decomposed is [mat2.dot(pinv(mat1))], the refined
    matrix on the left and the pseudo-inverse of the fallback matrix on the
    right: the run fails when its decomposition fails, and otherwise prints
    and gates the metrics of its translation, rotation and scales.  The
    pseudo-inverse is asked to satisfy the Penrose equations only; where the
    fallback matrix has an inverse [B], this matrix is [mat2.dot(B)] and
    carries the fallback transform onto the refined one. *)
Theorem relative_transform
        (np : library) (test_mat fallback_mat : value) (out : stdout)
        (mat1 mat2 P : mat44) :
  loadtxt np fallback_mat = inr mat1 ->
  loadtxt np test_mat = inr mat2 ->
  pinv np mat1 = inr P ->
  penrose mat1 P ->
  let comp := dot mat2 P in
  (forall e : exn,
      decompose44 np comp = inl e ->
      compare_xforms np test_mat fallback_mat out = (inl e, out)) /\
  (forall trans rotation_matrix scales shears direction angle,
      decompose44 np comp = inr (trans, rotation_matrix, scales, shears) ->
      mat2axangle np rotation_matrix = inr (direction, angle) ->
      compare_xforms np test_mat fallback_mat out
      = (inr (gate (sqrt (dot3 trans trans)) angle (np_max (np_abs scales))),
         (out ++ [(metrics_format,
                   [sqrt (dot3 trans trans); angle * 180 / PI;
                    np_max (np_abs scales)])])%list)) /\
  (forall B : mat44,
      dot mat1 B = eye4 -> dot B mat1 = eye4 ->
      comp = dot mat2 B /\ dot comp mat1 = mat2).
Proof.
  intros Hfb Htest Hpinv HP comp. split; [|split].
  - intros e He. unfold compare_xforms, bind, call.
    rewrite Hfb, Htest, Hpinv. fold comp. rewrite He. reflexivity.
  - intros t Rm sc sh dir a Hdec Hax.
    apply (@compare_xforms_returns np test_mat fallback_mat out
             mat1 mat2 P t Rm sc sh dir a); assumption.
  - intros B HB1 HB2.
    assert (P = B) as ->
        by (apply (penrose_unique HP); apply penrose_inverse; assumption).
    split; [reflexivity|].
    unfold comp. rewrite dot_assoc, HB2. apply dot_eye_r.
Qed.

Lemma relative_transform_witness :
  dot (dot (translation (0, 0, 6)) (translation (- (1), - (2), - (3))))
      (translation (1, 2, 3))
  = translation (0, 0, 6).
Proof.
  destruct (translation_inverse 1 2 3) as [Hl Hr].
  exact (proj2 (proj2 (proj2
    (@relative_transform
       (Exact.lib FSL_BBR (translation (0, 0, 6)) (translation (1, 2, 3)))
       (VOut flt_bbr "out_matrix_file") (VOut flt_bbr_init "out_matrix_file")
       [] (translation (1, 2, 3)) (translation (0, 0, 6))
       (translation (- (1), - (2), - (3))) eq_refl eq_refl
       (exact_pinv (@penrose_inverse _ _ Hl Hr)) (@penrose_inverse _ _ Hl Hr)))
    (translation (- (1), - (2), - (3))) Hl Hr)).
Defined.

(** ** The metrics *)

Lemma max_scale_abs (sx sy sz : R) :
  np_max (np_abs (sx, sy, sz)) = Rmax (Rmax (Rabs sx) (Rabs sy)) (Rabs sz).
Proof. reflexivity. Qed.

Lemma max_scale_one_axis (scales : vec3) :
  scales = (0.85, 1, 1) \/ scales = (1, 0.85, 1) \/ scales = (1, 1, 0.85) ->
  np_max (np_abs scales) = 1.
Proof.
  assert (H85 : Rabs 0.85 = 0.85) by (apply Rabs_pos_eq; lra).
  intros [-> | [-> | ->]]; unfold np_max, np_abs;
    rewrite Rabs_R1, H85; unfold Rmax;
    repeat destruct (Rle_dec _ _); lra.
Qed.

Lemma Rmax3_gt (a b c t : R) :
  Rmax (Rmax a b) c > t <-> a > t \/ b > t \/ c > t.
Proof.
  unfold Rmax. repeat destruct (Rle_dec _ _); lra.
Qed.

(** C7: the largest scale a run prints and gates is the maximum of the
    absolute values of the three scales the decomposition returns, whatever
    their signs.  When the shift and the rotation are within their
    thresholds, the verdict is [true] exactly when one of the scales exceeds
    1.1 in absolute value, so a negative scale below -1.1 rejects.  When the
    decomposition scales one axis by 0.85 and leaves the other two at 1, the
    largest scale is 1, which does not exceed 1.1 (the ratio 1/0.85 would),
    and the verdict is [false]. *)
Theorem max_scale_is_absolute
        (np : library) (test_mat fallback_mat : value) (out : stdout)
        (mat1 mat2 P : mat44) (trans : vec3) (rotation_matrix : mat33)
        (sx sy sz : R) (shears direction : vec3) (angle : R) :
  loadtxt np fallback_mat = inr mat1 ->
  loadtxt np test_mat = inr mat2 ->
  pinv np mat1 = inr P ->
  decompose44 np (dot mat2 P)
  = inr (trans, rotation_matrix, (sx, sy, sz), shears) ->
  mat2axangle np rotation_matrix = inr (direction, angle) ->
  let shift_magnitude := sqrt (dot3 trans trans) in
  let max_scale := Rmax (Rmax (Rabs sx) (Rabs sy)) (Rabs sz) in
  let run := compare_xforms np test_mat fallback_mat out in
  run = (inr (gate shift_magnitude angle max_scale),
         (out ++ [(metrics_format,
                   [shift_magnitude; angle * 180 / PI; max_scale])])%list) /\
  (shift_magnitude <= 5 ->
   angle <= PI / 36 ->
   (returned run = Some true <->
    Rabs sx > 1.1 \/ Rabs sy > 1.1 \/ Rabs sz > 1.1) /\
   ((sx, sy, sz) = (0.85, 1, 1) \/ (sx, sy, sz) = (1, 0.85, 1)
    \/ (sx, sy, sz) = (1, 1, 0.85) ->
    max_scale = 1 /\
    gt (/ 0.85) 1.1 = true /\
    run = (inr false,
           (out ++ [(metrics_format,
                     [shift_magnitude; angle * 180 / PI; 1])])%list))).
Proof.
  intros Hfb Htest Hpinv Hdec Hax shift_magnitude max_scale run.
  assert (Hrun : run = (inr (gate shift_magnitude angle max_scale),
                        (out ++ [(metrics_format,
                                  [shift_magnitude; angle * 180 / PI;
                                   max_scale])])%list)).
  { subst run.
    rewrite (@compare_xforms_returns np test_mat fallback_mat out
               mat1 mat2 P trans rotation_matrix (sx, sy, sz) shears
               direction angle); trivial. }
  split; [exact Hrun|].
  intros Hshift Hrot. split.
  - rewrite Hrun. unfold returned. cbn [fst].
    rewrite <- (Rmax3_gt (Rabs sx) (Rabs sy) (Rabs sz) 1.1).
    fold max_scale. split.
    + intros H. injection H as H. apply gate_true in H.
      destruct H as [H | [H | H]]; [lra | lra | exact H].
    + intros H. f_equal. apply gate_true. right. right. exact H.
  - intros Hsc.
    assert (Hmax : max_scale = 1).
    { subst max_scale. rewrite <- max_scale_abs.
      apply max_scale_one_axis. exact Hsc. }
    split; [exact Hmax|]. split.
    { apply gt_true. apply Rlt_gt.
      apply (Rmult_lt_reg_r 0.85); [lra|].
      rewrite Rinv_l by lra. lra. }
    rewrite Hrun, Hmax.
    assert (Hg : gate shift_magnitude angle 1 = false)
      by (apply gate_false; repeat split; lra).
    rewrite Hg. reflexivity.
Qed.

Lemma scaling_pinv_identity (sx : R) :
  dot ((sx, 0, 0, 0), (0, 1, 0, 0), (0, 0, 1, 0), (0, 0, 0, 1)) eye4
  = ((sx, 0, 0, 0), (0, 1, 0, 0), (0, 0, 1, 0), (0, 0, 0, 1)).
Proof. apply dot_eye_r. Qed.

(** A stretch by [k] of the first axis together with its reflection: the
    determinant is negative, and the first scale is [- k]. *)
Lemma exact_decompose44_reflection (k : R) :
  0 < k ->
  Exact.decompose44 ((- k, 0, 0, 0), (0, 1, 0, 0), (0, 0, 1, 0), (0, 0, 0, 1))
  = inr (zeros, eye3, (- k, 1, 1), zeros).
Proof.
  intros Hk.
  unfold Exact.decompose44.
  cbv beta iota zeta delta
      [dot3 Exact.div3 Exact.sub3 Exact.add3 Exact.scale3].
  assert (S1 : sqrt (- k * - k + 0 * 0 + 0 * 0) = k).
  { replace (- k * - k + 0 * 0 + 0 * 0) with (k * k) by ring.
    apply sqrt_square; lra. }
  rewrite S1.
  replace (- k / k) with (- (1)) by (field; lra).
  replace (0 / k) with 0 by (field; lra).
  replace (- (1) * 0 + 0 * 1 + 0 * 0) with 0 by ring.
  replace (- (1) * 0 + 0 * 0 + 0 * 1) with 0 by ring.
  replace (0 - 0 * - (1)) with 0 by ring.
  replace (1 - 0 * 0) with 1 by ring.
  replace (0 - 0 * 0) with 0 by ring.
  assert (S2 : sqrt (0 * 0 + 1 * 1 + 0 * 0) = 1).
  { replace (0 * 0 + 1 * 1 + 0 * 0) with (1 * 1) by ring.
    apply sqrt_square; lra. }
  rewrite S2.
  replace (1 / 1) with 1 by field.
  replace (0 / 1) with 0 by field.
  replace (0 * 0 + 1 * 0 + 0 * 1) with 0 by ring.
  replace (0 - (0 * - (1) + 0 * 0)) with 0 by ring.
  replace (0 - (0 * 0 + 0 * 1)) with 0 by ring.
  replace (1 - (0 * 0 + 0 * 0)) with 1 by ring.
  assert (S3 : sqrt (0 * 0 + 0 * 0 + 1 * 1) = 1).
  { replace (0 * 0 + 0 * 0 + 1 * 1) with (1 * 1) by ring.
    apply sqrt_square; lra. }
  rewrite S3.
  replace (1 / 1) with 1 by field.
  replace (0 / 1) with 0 by field.
  replace (0 / k) with 0 by (field; lra).
  rewrite !eqb0_false by lra.
  cbv beta iota zeta delta [orb Exact.of_columns det3 Exact.scale3].
  destruct (Rlt_dec _ 0) as [_|Hpos]; [|exfalso; apply Hpos; lra].
  replace (-1 * - (1)) with 1 by ring.
  replace (-1 * 0) with 0 by ring.
  reflexivity.
Qed.

Lemma max_scale_is_absolute_witness :
  compare_xforms
    (Exact.lib FSL_BBR
               ((0.85, 0, 0, 0), (0, 1, 0, 0), (0, 0, 1, 0), (0, 0, 0, 1))
               eye4)
    (VOut flt_bbr "out_matrix_file") (VOut flt_bbr_init "out_matrix_file") []
  = (inr false,
     [(metrics_format, [sqrt (dot3 zeros zeros); 0 * 180 / PI; 1])]) /\
  returned
    (compare_xforms
       (Exact.lib FSL_BBR
                  ((- (1.2), 0, 0, 0), (0, 1, 0, 0), (0, 0, 1, 0),
                   (0, 0, 0, 1))
                  eye4)
       (VOut flt_bbr "out_matrix_file") (VOut flt_bbr_init "out_matrix_file")
       [])
  = Some true.
Proof.
  destruct exact_mat2axangle_eye3 as [direction Hax].
  assert (Hshift : sqrt (dot3 zeros zeros) <= 5) by (rewrite shift_zeros; lra).
  assert (Hrot : 0 <= PI / 36) by (pose proof PI_RGT_0; lra).
  split.
  - refine (proj2 (proj2 (proj2 (proj2
      (@max_scale_is_absolute
         (Exact.lib FSL_BBR
                    ((0.85, 0, 0, 0), (0, 1, 0, 0), (0, 0, 1, 0),
                     (0, 0, 0, 1))
                    eye4)
         (VOut flt_bbr "out_matrix_file")
         (VOut flt_bbr_init "out_matrix_file")
         [] eye4
         ((0.85, 0, 0, 0), (0, 1, 0, 0), (0, 0, 1, 0), (0, 0, 0, 1))
         eye4 zeros eye3 0.85 1 1 zeros direction 0
         eq_refl eq_refl (exact_pinv penrose_eye) _ Hax)
      Hshift Hrot) (or_introl eq_refl)))).
    cbn [decompose44 Exact.lib]. rewrite scaling_pinv_identity.
    apply (@exact_decompose44_diag 0.85 1 1 0 0 0 (0, 0, 0, 1)); lra.
  - refine (proj2 (proj1 (proj2
      (@max_scale_is_absolute
         (Exact.lib FSL_BBR
                    ((- (1.2), 0, 0, 0), (0, 1, 0, 0), (0, 0, 1, 0),
                     (0, 0, 0, 1))
                    eye4)
         (VOut flt_bbr "out_matrix_file")
         (VOut flt_bbr_init "out_matrix_file")
         [] eye4
         ((- (1.2), 0, 0, 0), (0, 1, 0, 0), (0, 0, 1, 0), (0, 0, 0, 1))
         eye4 zeros eye3 (- (1.2)) 1 1 zeros direction 0
         eq_refl eq_refl (exact_pinv penrose_eye) _ Hax)
      Hshift Hrot)) _).
    + cbn [decompose44 Exact.lib]. rewrite scaling_pinv_identity.
      apply exact_decompose44_reflection. lra.
    + left. rewrite Rabs_Ropp, Rabs_pos_eq; lra.
Defined.

(** The reference library on a pure translation against the identity. *)
Lemma exact_run_translation (s : strategy) (t : vec3) (out : stdout) :
  compare_xforms (Exact.lib s (translation t) eye4)
                 (VOut (refined s) (xfm_field s))
                 (VOut (fallback s) (xfm_field s)) out
  = (inr (gt (sqrt (dot3 t t)) 5),
     (out ++ [(metrics_format,
               [sqrt (dot3 t t); 0 * 180 / PI; np_max (np_abs ones)])])%list).
Proof.
  destruct exact_mat2axangle_eye3 as [direction Hax].
  rewrite (@compare_xforms_returns (Exact.lib s (translation t) eye4)
             (VOut (refined s) (xfm_field s))
             (VOut (fallback s) (xfm_field s)) out
             eye4 (translation t) eye4 t eye3 ones zeros direction 0).
  - rewrite gate_unit. reflexivity.
  - apply disk_fallback.
  - apply disk_refined.
  - apply (exact_pinv penrose_eye).
  - rewrite dot_eye_r. apply exact_decompose44_translation.
  - exact Hax.
Qed.

(** C6: with the axis-angle routine the spec describes, the rotation a run
    prints and gates is an angle between 0 and PI. *)
Theorem rotation_angle_range
        (np : library) (test_mat fallback_mat : value) (out out' : stdout)
        (b : bool) :
  (forall rotation_matrix : mat33,
      mat2axangle np rotation_matrix = Exact.mat2axangle rotation_matrix) ->
  compare_xforms np test_mat fallback_mat out = (inr b, out') ->
  exists shift_magnitude rot max_scale,
    out' = (out ++ [(metrics_format,
                     [shift_magnitude; rot * 180 / PI; max_scale])])%list /\
    b = gate shift_magnitude rot max_scale /\
    0 <= rot <= PI.
Proof.
  intros Hlib Hrun.
  destruct (compare_xforms_inv _ _ _ _ Hrun)
    as (mat1 & mat2 & P & t & Rm & sc & sh & dir & a & _ & _ & _ & _ & Hax
        & Hb & Hout).
  exists (sqrt (dot3 t t)), a, (np_max (np_abs sc)).
  repeat split; trivial;
    rewrite Hlib in Hax; unfold Exact.mat2axangle in Hax;
    destruct Rm as [[[[m00 m01] m02] [[m10 m11] m12]] [[m20 m21] m22]];
    injection Hax as _ <-; apply acos_bound.
Qed.

Lemma rotation_angle_range_witness :
  exists shift_magnitude rot max_scale : R,
    [(metrics_format,
      [sqrt (dot3 (3, 4, 0) (3, 4, 0)); 0 * 180 / PI; np_max (np_abs ones)])]
    = [(metrics_format, [shift_magnitude; rot * 180 / PI; max_scale])] /\
    gt (sqrt (dot3 (3, 4, 0) (3, 4, 0))) 5
    = gate shift_magnitude rot max_scale /\
    0 <= rot <= PI.
Proof.
  exact (@rotation_angle_range
           (Exact.lib FSL_BBR (translation (3, 4, 0)) eye4)
           (VOut flt_bbr "out_matrix_file")
           (VOut flt_bbr_init "out_matrix_file") [] _ _
           (fun _ => eq_refl)
           (exact_run_translation FSL_BBR (3, 4, 0) [])).
Defined.

(** ** Determinism *)

Lemma compare_xforms_verdict_indep
      (np : library) (test_mat fallback_mat : value) (out1 out2 : stdout) :
  fst (compare_xforms np test_mat fallback_mat out1)
  = fst (compare_xforms np test_mat fallback_mat out2).
Proof.
  unfold compare_xforms, bind, call, print, ret.
  destruct (loadtxt np fallback_mat) as [e|mat1]; [reflexivity|].
  destruct (loadtxt np test_mat) as [e|mat2]; [reflexivity|].
  destruct (pinv np mat1) as [e|P]; [reflexivity|].
  destruct (decompose44 np (dot mat2 P)) as [e|[[[t Rm] sc] sh]];
    [reflexivity|].
  destruct (mat2axangle np Rm) as [e|[dir a]]; reflexivity.
Qed.

Lemma compare_xforms_appends
      (np : library) (test_mat fallback_mat : value) (out : stdout) :
  exists printed : stdout,
    snd (compare_xforms np test_mat fallback_mat out) = (out ++ printed)%list
    /\ (List.length printed <= 1)%nat.
Proof.
  unfold compare_xforms, bind, call, print, ret.
  destruct (loadtxt np fallback_mat) as [e|mat1];
    [exists []; rewrite app_nil_r; auto|].
  destruct (loadtxt np test_mat) as [e|mat2];
    [exists []; rewrite app_nil_r; auto|].
  destruct (pinv np mat1) as [e|P];
    [exists []; rewrite app_nil_r; auto|].
  destruct (decompose44 np (dot mat2 P)) as [e|[[[t Rm] sc] sh]];
    [exists []; rewrite app_nil_r; auto|].
  destruct (mat2axangle np Rm) as [e|[dir a]];
    [exists []; rewrite app_nil_r; auto|].
  eexists. split; [reflexivity|]. simpl. lia.
Qed.

Lemma compare_node_indep
      (np : library) (out1 out2 : stdout) (test_mat fallback_mat : value) :
  compare_node np out1 test_mat fallback_mat
  = compare_node np out2 test_mat fallback_mat.
Proof.
  unfold compare_node, returned.
  rewrite (compare_xforms_verdict_indep np test_mat fallback_mat out1 out2).
  reflexivity.
Qed.

Lemma eval_out_ext (cmp1 cmp2 : value -> value -> option bool)
      (w : workflow) :
  (forall t f, cmp1 t f = cmp2 t f) ->
  forall k n f, eval_out cmp1 w k n f = eval_out cmp2 w k n f.
Proof.
  intros Hcmp. induction k as [|k IH]; intros n f; [reflexivity|].
  simpl.
  destruct (interface_of (nodes w) n) as [i|]; [|reflexivity].
  assert (Hseq :
    sequence (map (fun e : node * string * string =>
                     let '(src, sf, df) := e in (df, eval_out cmp1 w k src sf))
                  (incoming w n))
    = sequence (map (fun e : node * string * string =>
                     let '(src, sf, df) := e in (df, eval_out cmp2 w k src sf))
                  (incoming w n))).
  { f_equal. apply map_ext. intros [[src sf] df]. rewrite IH. reflexivity. }
  destruct i; rewrite ?Hseq; try reflexivity.
  - destruct (existsb _ fields); [|reflexivity].
    destruct (source_of w n f) as [[src sf]|]; [apply IH|reflexivity].
  - clear Hseq. destruct (sequence _) as [args|]; [|reflexivity].
    destruct function; [|reflexivity].
    unfold run_function.
    destruct (lookup args "test_mat"); [|reflexivity].
    destruct (lookup args "fallback_mat"); [|reflexivity].
    rewrite Hcmp. reflexivity.
Qed.

(** C8: the verdict of [compare_xforms] is a function of the two files and
    of what the routines return on them: it does not depend on what was
    printed before, a second call after the first gives the same verdict,
    printing only appends (at most one line) to the output, and the selected
    transform, the selected report and the [fallback] output of a workflow
    are the same for any two states of the output. *)
Theorem verdict_is_deterministic
        (np : library) (test_mat fallback_mat : value) (out1 out2 : stdout)
        (s : strategy) (bold2t1w_dof omp_nthreads : nat) :
  fst (compare_xforms np test_mat fallback_mat out1)
  = fst (compare_xforms np test_mat fallback_mat out2) /\
  fst (compare_xforms np test_mat fallback_mat
         (snd (compare_xforms np test_mat fallback_mat out1)))
  = fst (compare_xforms np test_mat fallback_mat out1) /\
  (exists printed : stdout,
      snd (compare_xforms np test_mat fallback_mat out1)
      = (out1 ++ printed)%list /\ (List.length printed <= 1)%nat) /\
  arbitrate np out1 (build s bold2t1w_dof omp_nthreads)
  = arbitrate np out2 (build s bold2t1w_dof omp_nthreads).
Proof.
  split; [apply compare_xforms_verdict_indep|].
  split; [apply compare_xforms_verdict_indep|].
  split; [apply compare_xforms_appends|].
  unfold arbitrate.
  rewrite !(eval_out_ext (compare_node np out1) (compare_node np out2)
              (build s bold2t1w_dof omp_nthreads)
              (compare_node_indep np out1 out2)).
  reflexivity.
Qed.

(** ** Singular matrices *)

Ltac array_lra :=
  intros; split_arrays; unfold_arrays; array_eq; lra.

Lemma penrose_singular_fallback :
  penrose singular_fallback singular_fallback_pinv.
Proof.
  unfold penrose, singular_fallback, singular_fallback_pinv.
  repeat split; array_lra.
Qed.

Lemma singular_fallback_not_invertible : ~ invertible singular_fallback.
Proof.
  intros (B & HAB & _). revert HAB.
  unfold singular_fallback. split_arrays. unfold_arrays.
  intros H. injection H as. lra.
Qed.

(** C5, as stated, fails: the fallback matrix below has a singular linear
    block and no inverse, and the comparison of a translation by (0, 0, 2)
    against it raises nothing: it prints a shift of 1 and returns [false]. *)
Lemma singular_fallback_gets_verdict :
  det3 (linear_block singular_fallback) = 0 /\
  ~ invertible singular_fallback /\
  compare_xforms
    (Exact.lib FSL_BBR (translation (0, 0, 2)) singular_fallback)
    (VOut flt_bbr "out_matrix_file") (VOut flt_bbr_init "out_matrix_file") []
  = (inr false, [(metrics_format, [1; 0; 1])]).
Proof.
  split; [unfold singular_fallback, linear_block, det3; ring|].
  split; [exact singular_fallback_not_invertible|].
  destruct exact_mat2axangle_eye3 as [direction Hax].
  assert (Hcomp : dot (translation (0, 0, 2)) singular_fallback_pinv
                  = ((1, 0, 0, 0), (0, 1, 0, 0), (0, 0, 1, 1),
                     (0, 0, 1 / 2, 1 / 2)))
    by (unfold singular_fallback_pinv; array_lra).
  rewrite (@compare_xforms_returns
             (Exact.lib FSL_BBR (translation (0, 0, 2)) singular_fallback)
             (VOut flt_bbr "out_matrix_file")
             (VOut flt_bbr_init "out_matrix_file") []
             singular_fallback (translation (0, 0, 2)) singular_fallback_pinv
             (0, 0, 1) eye3 ones zeros direction 0); trivial.
  - rewrite gate_unit, max_scale_ones.
    assert (Hs : sqrt (dot3 (0, 0, 1) (0, 0, 1)) = 1).
    { unfold dot3. replace (0 * 0 + 0 * 0 + 1 * 1) with 1 by ring.
      apply sqrt_1. }
    rewrite Hs.
    assert (Hg : gt 1 5 = false) by (apply gt_false; lra).
    rewrite Hg.
    replace (0 * 180 / PI) with 0 by (unfold Rdiv; ring).
    reflexivity.
  - apply (exact_pinv penrose_singular_fallback).
  - cbn [decompose44 Exact.lib]. rewrite Hcomp.
    apply (@exact_decompose44_diag 1 1 1 0 0 1 (0, 0, 1 / 2, 1 / 2)); lra.
Qed.

(** C5, amended: [compare_xforms] has no test for singular matrices and no
    exception of its own.  A run raises exactly when one of the routines it
    calls raises (writing the line to the output is taken to succeed).  If a
    run raises, the exception is that of the first routine that raised, and
    nothing has been printed.  If a routine raises, the routines before it
    having returned, the run raises that exception, prints nothing, returns
    no verdict, and calls nothing again.  If all of them return, whatever the
    matrices, the run prints the metrics once and returns the verdict of the
    gate on them. *)
Theorem failures_are_the_routines
        (np : library) (test_mat fallback_mat : value) (out : stdout) :
  let run := compare_xforms np test_mat fallback_mat out in
  (forall (e : exn) (out' : stdout),
      run = (inl e, out') ->
      out' = out /\
      (loadtxt np fallback_mat = inl e \/
       exists mat1, loadtxt np fallback_mat = inr mat1 /\
         (loadtxt np test_mat = inl e \/
          exists mat2, loadtxt np test_mat = inr mat2 /\
            (pinv np mat1 = inl e \/
             exists P, pinv np mat1 = inr P /\
               (decompose44 np (dot mat2 P) = inl e \/
                exists trans rotation_matrix scales shears,
                  decompose44 np (dot mat2 P)
                  = inr (trans, rotation_matrix, scales, shears) /\
                  mat2axangle np rotation_matrix = inl e))))) /\
  (forall e : exn,
      loadtxt np fallback_mat = inl e ->
      run = (inl e, out) /\ returned run = None) /\
  (forall (e : exn) (mat1 : mat44),
      loadtxt np fallback_mat = inr mat1 ->
      loadtxt np test_mat = inl e ->
      run = (inl e, out) /\ returned run = None) /\
  (forall (e : exn) (mat1 mat2 : mat44),
      loadtxt np fallback_mat = inr mat1 ->
      loadtxt np test_mat = inr mat2 ->
      pinv np mat1 = inl e ->
      run = (inl e, out) /\ returned run = None) /\
  (forall (e : exn) (mat1 mat2 P : mat44),
      loadtxt np fallback_mat = inr mat1 ->
      loadtxt np test_mat = inr mat2 ->
      pinv np mat1 = inr P ->
      decompose44 np (dot mat2 P) = inl e ->
      run = (inl e, out) /\ returned run = None) /\
  (forall (e : exn) (mat1 mat2 P : mat44) (trans : vec3)
          (rotation_matrix : mat33) (scales shears : vec3),
      loadtxt np fallback_mat = inr mat1 ->
      loadtxt np test_mat = inr mat2 ->
      pinv np mat1 = inr P ->
      decompose44 np (dot mat2 P)
      = inr (trans, rotation_matrix, scales, shears) ->
      mat2axangle np rotation_matrix = inl e ->
      run = (inl e, out) /\ returned run = None) /\
  (forall mat1 mat2 P trans rotation_matrix scales shears direction angle,
      loadtxt np fallback_mat = inr mat1 ->
      loadtxt np test_mat = inr mat2 ->
      pinv np mat1 = inr P ->
      decompose44 np (dot mat2 P)
      = inr (trans, rotation_matrix, scales, shears) ->
      mat2axangle np rotation_matrix = inr (direction, angle) ->
      let shift_magnitude := sqrt (dot3 trans trans) in
      let max_scale := np_max (np_abs scales) in
      run = (inr (gate shift_magnitude angle max_scale),
             (out ++ [(metrics_format,
                       [shift_magnitude; angle * 180 / PI; max_scale])])%list)
      /\ returned run = Some (gate shift_magnitude angle max_scale)).
Proof.
  intros run. subst run.
  split; [intros e out'; apply compare_xforms_raises|].
  split; [|split; [|split; [|split; [|split]]]].
  - intros e H1.
    unfold returned, compare_xforms, bind, call. rewrite H1.
    split; reflexivity.
  - intros e mat1 H1 H2.
    unfold returned, compare_xforms, bind, call. rewrite H1, H2.
    split; reflexivity.
  - intros e mat1 mat2 H1 H2 H3.
    unfold returned, compare_xforms, bind, call. rewrite H1, H2, H3.
    split; reflexivity.
  - intros e mat1 mat2 P H1 H2 H3 H4.
    unfold returned, compare_xforms, bind, call. rewrite H1, H2, H3, H4.
    split; reflexivity.
  - intros e mat1 mat2 P t Rm sc sh H1 H2 H3 H4 H5.
    unfold returned, compare_xforms, bind, call.
    rewrite H1, H2, H3, H4, H5.
    split; reflexivity.
  - intros mat1 mat2 P t Rm sc sh dir a H1 H2 H3 H4 H5 s m.
    rewrite (@compare_xforms_returns np test_mat fallback_mat out
               mat1 mat2 P t Rm sc sh dir a H1 H2 H3 H4 H5).
    split; reflexivity.
Qed.

Lemma failures_are_the_routines_witness :
  compare_xforms (Exact.lib FSL_BBR (translation (0, 0, 6)) eye4)
                 (VOut flt_bbr "out_matrix_file")
                 (VOut flt_bbr_init "out_matrix_file") []
  = (inr (gate (sqrt (dot3 (0, 0, 6) (0, 0, 6))) 0 (np_max (np_abs ones))),
     [(metrics_format,
       [sqrt (dot3 (0, 0, 6) (0, 0, 6)); 0 * 180 / PI;
        np_max (np_abs ones)])]).
Proof.
  destruct exact_mat2axangle_eye3 as [direction Hax].
  refine (proj1
    ((proj2 (proj2 (proj2 (proj2 (proj2 (proj2
        (@failures_are_the_routines
           (Exact.lib FSL_BBR (translation (0, 0, 6)) eye4)
           (VOut flt_bbr "out_matrix_file")
           (VOut flt_bbr_init "out_matrix_file") [])))))))
       eye4 (translation (0, 0, 6)) eye4 (0, 0, 6) eye3 ones zeros
       direction 0
       eq_refl eq_refl (exact_pinv penrose_eye) _ Hax)).
  cbn [decompose44 Exact.lib]. rewrite dot_eye_r.
  apply exact_decompose44_translation.
Defined.

(** A refined matrix whose linear block is all zeros, against the identity:
    the first column has norm 0, the decomposition has no value and the
    reference library raises; nothing is printed. *)
Lemma zero_linear_block_raises (t : vec3) :
  compare_xforms
    (Exact.lib FSL_BBR (affine ((0, 0, 0), (0, 0, 0), (0, 0, 0)) t) eye4)
    (VOut flt_bbr "out_matrix_file") (VOut flt_bbr_init "out_matrix_file") []
  = (inl LinAlgError, []).
Proof.
  destruct t as [[t0 t1] t2].
  unfold compare_xforms, bind, call.
  cbn [loadtxt pinv decompose44 Exact.lib Exact.disk].
  cbn [xfm_field refined fallback node_beq String.eqb Ascii.eqb Bool.eqb].
  rewrite (exact_pinv penrose_eye), dot_eye_r.
  unfold Exact.decompose44, affine.
  cbv beta iota zeta delta [dot3].
  replace (0 * 0 + 0 * 0 + 0 * 0) with 0 by ring.
  rewrite sqrt_0.
  unfold Exact.eqb0 at 1. destruct (Req_dec_T 0 0) as [_|H]; [|lra].
  reflexivity.
Qed.

(** ** Further properties of the metrics *)

(** The shift and the largest scale a run prints are never negative. *)
Theorem metrics_nonnegative
        (np : library) (test_mat fallback_mat : value) (out out' : stdout)
        (b : bool) :
  compare_xforms np test_mat fallback_mat out = (inr b, out') ->
  exists shift_magnitude rot max_scale,
    out' = (out ++ [(metrics_format,
                     [shift_magnitude; rot * 180 / PI; max_scale])])%list /\
    b = gate shift_magnitude rot max_scale /\
    0 <= shift_magnitude /\ 0 <= max_scale.
Proof.
  intros Hrun.
  destruct (compare_xforms_inv _ _ _ _ Hrun)
    as (mat1 & mat2 & P & t & Rm & sc & sh & dir & a & _ & _ & _ & _ & _
        & Hb & Hout).
  exists (sqrt (dot3 t t)), a, (np_max (np_abs sc)).
  repeat split; trivial.
  - apply sqrt_pos.
  - destruct sc as [[sx sy] sz]. unfold np_max, np_abs.
    apply Rle_trans with (Rabs sz); [apply Rabs_pos|apply Rmax_r].
Qed.

Lemma metrics_nonnegative_witness :
  exists shift_magnitude rot max_scale : R,
    [(metrics_format,
      [sqrt (dot3 (3, 4, 0) (3, 4, 0)); 0 * 180 / PI; np_max (np_abs ones)])]
    = [(metrics_format, [shift_magnitude; rot * 180 / PI; max_scale])] /\
    gt (sqrt (dot3 (3, 4, 0) (3, 4, 0))) 5
    = gate shift_magnitude rot max_scale /\
    0 <= shift_magnitude /\ 0 <= max_scale.
Proof.
  exact (@metrics_nonnegative
           (Exact.lib FSL_BBR (translation (3, 4, 0)) eye4)
           (VOut flt_bbr "out_matrix_file")
           (VOut flt_bbr_init "out_matrix_file") [] _ _
           (exact_run_translation FSL_BBR (3, 4, 0) [])).
Defined.

(** The rotation test takes the angle the axis-angle routine returns as it
    is, without an absolute value: an angle of at most PI/36, in particular
    any negative angle, never rejects by itself. *)
Theorem rotation_test_is_one_sided
        (np : library) (test_mat fallback_mat : value) (out : stdout)
        (mat1 mat2 P : mat44) (trans : vec3) (rotation_matrix : mat33)
        (scales shears direction : vec3) (angle : R) :
  loadtxt np fallback_mat = inr mat1 ->
  loadtxt np test_mat = inr mat2 ->
  pinv np mat1 = inr P ->
  decompose44 np (dot mat2 P) = inr (trans, rotation_matrix, scales, shears) ->
  mat2axangle np rotation_matrix = inr (direction, angle) ->
  angle <= PI / 36 ->
  returned (compare_xforms np test_mat fallback_mat out)
  = Some (gt (sqrt (dot3 trans trans)) 5
          || gt (np_max (np_abs scales)) 1.1).
Proof.
  intros Hfb Htest Hpinv Hdec Hax Hrot.
  rewrite (@compare_xforms_returns np test_mat fallback_mat out
             mat1 mat2 P trans rotation_matrix scales shears direction angle);
    trivial.
  unfold returned, gate. cbn [fst].
  assert (Hg : gt angle (PI / 36) = false) by (apply gt_false; exact Hrot).
  rewrite Hg, orb_false_r. reflexivity.
Qed.

Lemma rotation_test_is_one_sided_witness :
  returned
    (compare_xforms (Exact.lib FSL_BBR (translation (0, 0, 6)) eye4)
                    (VOut flt_bbr "out_matrix_file")
                    (VOut flt_bbr_init "out_matrix_file") [])
  = Some (gt (sqrt (dot3 (0, 0, 6) (0, 0, 6))) 5
          || gt (np_max (np_abs ones)) 1.1).
Proof.
  destruct exact_mat2axangle_eye3 as [direction Hax].
  refine (@rotation_test_is_one_sided
            (Exact.lib FSL_BBR (translation (0, 0, 6)) eye4)
            (VOut flt_bbr "out_matrix_file")
            (VOut flt_bbr_init "out_matrix_file") []
            eye4 (translation (0, 0, 6)) eye4 (0, 0, 6) eye3 ones zeros
            direction 0 eq_refl eq_refl (exact_pinv penrose_eye) _ Hax _).
  - cbn [decompose44 Exact.lib]. rewrite dot_eye_r.
    apply exact_decompose44_translation.
  - pose proof PI_RGT_0. lra.
Defined.

(** ** One pass, end to end *)

Lemma arbitrate_verdict
      (np : library) (out : stdout) (s : strategy)
      (bold2t1w_dof omp_nthreads : nat) (reject_refined : bool) :
  compare_node np out (VOut (refined s) (xfm_field s))
               (VOut (fallback s) (xfm_field s)) = Some reject_refined ->
  arbitrate np out (build s bold2t1w_dof omp_nthreads)
  = (Some (VOut (chosen s reject_refined) (xfm_field s)),
     Some (VOut (chosen s reject_refined) "out_report"%string),
     Some (VBool reject_refined)).
Proof.
  intros Hcmp. unfold arbitrate.
  destruct s; vm_compute in Hcmp; vm_compute; rewrite Hcmp;
    destruct reject_refined; reflexivity.
Qed.

(** The scenario of a fallback matrix equal to the identity and a refined
    matrix that translates by (0, 0, 6), on the reference library: the run
    prints a shift of 6, a rotation of 0 and a largest scale of 1 and returns
    [true]; the workflow hands on the transform and the report of the
    fallback registration. *)
Theorem end_to_end_scenario
        (s : strategy) (bold2t1w_dof omp_nthreads : nat) (out : stdout) :
  compare_xforms (Exact.lib s (translation (0, 0, 6)) eye4)
                 (VOut (refined s) (xfm_field s))
                 (VOut (fallback s) (xfm_field s)) out
  = (inr true, (out ++ [(metrics_format, [6; 0; 1])])%list) /\
  arbitrate (Exact.lib s (translation (0, 0, 6)) eye4) out
            (build s bold2t1w_dof omp_nthreads)
  = (Some (VOut (fallback s) (xfm_field s)),
     Some (VOut (fallback s) "out_report"%string),
     Some (VBool true)).
Proof.
  assert (Hs : sqrt (dot3 (0, 0, 6) (0, 0, 6)) = 6).
  { unfold dot3. replace (0 * 0 + 0 * 0 + 6 * 6) with (6 * 6) by ring.
    apply sqrt_square. lra. }
  assert (Hg : gt 6 5 = true) by (apply gt_true; lra).
  assert (Hrun : compare_xforms (Exact.lib s (translation (0, 0, 6)) eye4)
                   (VOut (refined s) (xfm_field s))
                   (VOut (fallback s) (xfm_field s)) out
                 = (inr true, (out ++ [(metrics_format, [6; 0; 1])])%list)).
  { rewrite exact_run_translation, Hs, Hg, max_scale_ones.
    replace (0 * 180 / PI) with 0 by (unfold Rdiv; ring). reflexivity. }
  split; [exact Hrun|].
  apply (@arbitrate_verdict _ out s bold2t1w_dof omp_nthreads true).
  unfold compare_node. rewrite Hrun. reflexivity.
Qed.

(** ** Facts about graphs of connections *)

Section GraphFacts.

Variable node : Type.
Variable node_eqb : node -> node -> bool.
Hypothesis node_eqb_true : forall a b, node_eqb a b = true -> a = b.
Variable rank : node -> nat.

Lemma ranked_feeds (cs : list (Dataflow.connection node)) (a b : node) :
  Dataflow.ranked rank cs = true ->
  Dataflow.feeds cs a b -> (rank a < rank b)%nat.
Proof.
  intros Hr (sf & df & Hin).
  unfold Dataflow.ranked in Hr. rewrite forallb_forall in Hr.
  specialize (Hr _ Hin). cbn in Hr. apply Nat.ltb_lt. exact Hr.
Qed.

Lemma ranked_depends (cs : list (Dataflow.connection node)) (a b : node) :
  Dataflow.ranked rank cs = true ->
  Dataflow.depends_on cs b a -> (rank a < rank b)%nat.
Proof.
  intros Hr Hd. unfold Dataflow.depends_on in Hd.
  induction Hd as [a b Hf | a c b _ IH1 _ IH2].
  - apply (ranked_feeds Hr Hf).
  - lia.
Qed.

Lemma ranked_acyclic (cs : list (Dataflow.connection node)) (n : node) :
  Dataflow.ranked rank cs = true -> ~ Dataflow.depends_on cs n n.
Proof.
  intros Hr Hd. pose proof (ranked_depends Hr Hd). lia.
Qed.

Variable g : Dataflow.graph node.
Hypothesis g_ranked : Dataflow.ranked rank (Dataflow.wires g) = true.

Lemma incoming_rank (n : node) (e : Dataflow.edge node) :
  In e (Dataflow.incoming node_eqb g n) ->
  In e (Dataflow.edges (Dataflow.wires g)) /\
  fst (Dataflow.dst_port e) = n /\
  (rank (fst (Dataflow.src_port e)) < rank n)%nat.
Proof.
  unfold Dataflow.incoming. rewrite filter_In. intros [Hin Hdst].
  apply node_eqb_true in Hdst.
  split; [exact Hin|]. split; [exact Hdst|].
  unfold Dataflow.ranked in g_ranked. rewrite forallb_forall in g_ranked.
  specialize (g_ranked _ Hin).
  destruct e as [[[src sf] dst] df]. cbn in *. subst dst.
  apply Nat.ltb_lt. exact g_ranked.
Qed.

Lemma source_of_incoming (n : node) (f : string) (src : node) (sf : string) :
  Dataflow.source_of node_eqb g n f = Some (src, sf) ->
  In (src, sf, n, f) (Dataflow.incoming node_eqb g n).
Proof.
  unfold Dataflow.source_of.
  destruct (filter _ (Dataflow.incoming node_eqb g n)) as [|e l] eqn:E;
    [discriminate|].
  intros H. injection H as H.
  assert (Hin : In e (filter (fun e0 : Dataflow.edge node =>
                                String.eqb (snd (Dataflow.dst_port e0)) f)
                             (Dataflow.incoming node_eqb g n)))
    by (rewrite E; left; reflexivity).
  apply filter_In in Hin. destruct Hin as [Hin Hf].
  apply String.eqb_eq in Hf.
  destruct (incoming_rank _ _ Hin) as (_ & Hdst & _).
  destruct e as [[[src' sf'] dst] df]. cbn in *.
  injection H as -> ->. subst. exact Hin.
Qed.

(** Once the evaluation has more steps than the rank of a node, more steps
    change nothing. *)
Lemma dataflow_eval_stable (k1 : nat) :
  forall k2 n f,
    (rank n < k1)%nat -> (rank n < k2)%nat ->
    Dataflow.eval_out node_eqb g k1 n f = Dataflow.eval_out node_eqb g k2 n f.
Proof.
  induction k1 as [|k1 IH]; intros k2 n f H1 H2; [lia|].
  destruct k2 as [|k2]; [lia|]. simpl.
  destruct (Dataflow.role_of node_eqb (Dataflow.roles g) n) as [[fields|]|];
    [| |reflexivity].
  - destruct (existsb _ fields); [|reflexivity].
    destruct (Dataflow.source_of node_eqb g n f) as [[src sf]|] eqn:E;
      [|reflexivity].
    apply source_of_incoming, incoming_rank in E. cbn in E.
    apply IH; lia.
  - assert (Hmap :
      map (fun e : Dataflow.edge node =>
             let '(src, sf, _, df) := e in
             (df, Dataflow.eval_out node_eqb g k1 src sf))
          (Dataflow.incoming node_eqb g n)
      = map (fun e : Dataflow.edge node =>
               let '(src, sf, _, df) := e in
               (df, Dataflow.eval_out node_eqb g k2 src sf))
            (Dataflow.incoming node_eqb g n)).
    { apply map_ext_in. intros [[[src sf] dst] df] Hin.
      apply incoming_rank in Hin. cbn in Hin.
      rewrite (IH k2 src sf); [reflexivity|lia|lia]. }
    rewrite Hmap. reflexivity.
Qed.

Hypothesis g_fields : Dataflow.fields_exist node_eqb g = true.

Lemma sequence_some
      (F : Dataflow.edge node -> string * option (Dataflow.term node))
      (l : list (Dataflow.edge node)) :
  (forall e, In e l -> exists v, snd (F e) = Some v) ->
  exists args, Dataflow.sequence (map F l) = Some args.
Proof.
  induction l as [|e l IH]; intros H; [exists []; reflexivity|].
  destruct (H e (or_introl eq_refl)) as [v Hv].
  destruct IH as [args Hargs]; [intros e' He'; apply H; right; exact He'|].
  simpl. destruct (F e) as [df o]. cbn in Hv. subst o.
  rewrite Hargs. eexists. reflexivity.
Qed.

(** Every field that exists is produced once the evaluation has more steps
    than the rank of its node. *)
Lemma dataflow_eval_total (k : nat) :
  forall n f,
    (rank n < k)%nat ->
    Dataflow.has_field node_eqb g (n, f) = true ->
    exists v, Dataflow.eval_out node_eqb g k n f = Some v.
Proof.
  induction k as [|k IH]; intros n f Hk Hf; [lia|].
  simpl. unfold Dataflow.has_field in Hf. cbn [fst snd] in Hf.
  destruct (Dataflow.role_of node_eqb (Dataflow.roles g) n) as [[fields|]|];
    [| |discriminate].
  - rewrite Hf.
    destruct (Dataflow.source_of node_eqb g n f) as [[src sf]|] eqn:E;
      [|eexists; reflexivity].
    apply source_of_incoming, incoming_rank in E.
    destruct E as (Hin & _ & Hr). cbn in Hr.
    unfold Dataflow.fields_exist in g_fields.
    rewrite forallb_forall in g_fields.
    specialize (g_fields _ Hin). apply andb_prop in g_fields.
    apply IH; [lia|]. exact (proj1 g_fields).
  - destruct (@sequence_some
                (fun e : Dataflow.edge node =>
                   let '(src, sf, _, df) := e in
                   (df, Dataflow.eval_out node_eqb g k src sf))
                (Dataflow.incoming node_eqb g n)) as [args Hargs].
    { intros [[[src sf] dst] df] Hin.
      apply incoming_rank in Hin. destruct Hin as (Hin & _ & Hr).
      cbn in Hr. cbn [snd].
      unfold Dataflow.fields_exist in g_fields.
      rewrite forallb_forall in g_fields.
      specialize (g_fields _ Hin). apply andb_prop in g_fields.
      apply IH; [lia|]. exact (proj1 g_fields). }
    rewrite Hargs. eexists. reflexivity.
Qed.

End GraphFacts.

(** ** Evaluation of the registration workflows does not depend on the
       number of steps *)

Section EngineStable.

Variable cmp : Engine.value -> Engine.value -> option bool.
Variable w : Engine.workflow.
Hypothesis w_ranked :
  Dataflow.ranked Structure.rank (Engine.connections w) = true.

Lemma engine_incoming_rank (n src : Engine.node) (sf df : string) :
  In (src, sf, df) (Engine.incoming w n) ->
  In (src, sf, n, df) (Dataflow.edges (Engine.connections w)) /\
  (Structure.rank src < Structure.rank n)%nat.
Proof.
  unfold Engine.incoming. rewrite in_flat_map.
  intros ([[src' dst] fs] & Hc & Hin).
  destruct (Engine.node_beq dst n) eqn:E; [|contradiction].
  apply Engine.internal_node_dec_bl in E. subst dst.
  apply in_map_iff in Hin. destruct Hin as ([sf' df'] & Heq & Hp).
  cbn in Heq. injection Heq as -> -> ->.
  assert (Hin : In (src, sf, n, df) (Dataflow.edges (Engine.connections w))).
  { unfold Dataflow.edges. rewrite in_flat_map.
    exists (src, n, fs). split; [exact Hc|].
    apply in_map_iff. exists (sf, df). split; [reflexivity|exact Hp]. }
  split; [exact Hin|].
  unfold Dataflow.ranked in w_ranked. rewrite forallb_forall in w_ranked.
  specialize (w_ranked _ Hin). cbn in w_ranked.
  apply Nat.ltb_lt. exact w_ranked.
Qed.

Lemma engine_source_rank (n src : Engine.node) (f sf : string) :
  Engine.source_of w n f = Some (src, sf) ->
  In (src, sf, n, f) (Dataflow.edges (Engine.connections w)) /\
  (Structure.rank src < Structure.rank n)%nat.
Proof.
  unfold Engine.source_of.
  destruct (filter _ (Engine.incoming w n)) as [|e l] eqn:E; [discriminate|].
  intros H. injection H as H.
  assert (Hin : In e (filter (fun e0 : Engine.node * string * string =>
                                String.eqb (snd e0) f)
                             (Engine.incoming w n)))
    by (rewrite E; left; reflexivity).
  apply filter_In in Hin. destruct Hin as [Hin Hf].
  apply String.eqb_eq in Hf.
  destruct e as [[src' sf'] df]. cbn in *. injection H as -> ->. subst df.
  apply engine_incoming_rank. exact Hin.
Qed.

Lemma engine_eval_stable (k1 : nat) :
  forall k2 n f,
    (Structure.rank n < k1)%nat -> (Structure.rank n < k2)%nat ->
    Engine.eval_out cmp w k1 n f = Engine.eval_out cmp w k2 n f.
Proof.
  induction k1 as [|k1 IH]; intros k2 n f H1 H2; [lia|].
  destruct k2 as [|k2]; [lia|]. simpl.
  destruct (Engine.interface_of (Engine.nodes w) n) as [i|]; [|reflexivity].
  assert (Hmap :
    map (fun e : Engine.node * string * string =>
           let '(src, sf, df) := e in (df, Engine.eval_out cmp w k1 src sf))
        (Engine.incoming w n)
    = map (fun e : Engine.node * string * string =>
             let '(src, sf, df) := e in (df, Engine.eval_out cmp w k2 src sf))
          (Engine.incoming w n)).
  { apply map_ext_in. intros [[src sf] df] Hin.
    apply engine_incoming_rank in Hin.
    rewrite (IH k2 src sf); [reflexivity|lia|lia]. }
  destruct i; rewrite ?Hmap; try reflexivity.
  destruct (existsb _ fields); [|reflexivity].
  destruct (Engine.source_of w n f) as [[src sf]|] eqn:E; [|reflexivity].
  apply engine_source_rank in E. apply IH; lia.
Qed.

(** What the evaluation reaches with any number of steps, it reaches with
    [depth] steps. *)
Lemma engine_eval_at_depth (fuel : nat) (n : Engine.node) (f : string)
      (v : Engine.value) :
  Engine.eval_out cmp w fuel n f = Some v ->
  Engine.eval_out cmp w Engine.depth n f = Some v.
Proof.
  intros H.
  assert (Hr : (Structure.rank n < Engine.depth)%nat)
    by (unfold Engine.depth; destruct n; cbn; lia).
  destruct (Nat.le_ge_cases fuel Engine.depth) as [Hle|Hge].
  - apply (eval_out_le cmp w n f Hle H).
  - rewrite (@engine_eval_stable Engine.depth fuel n f Hr); [exact H|lia].
Qed.

End EngineStable.

Lemma build_ranked (s : Engine.strategy) (bold2t1w_dof omp_nthreads : nat) :
  Dataflow.ranked Structure.rank
    (Engine.connections (Engine.build s bold2t1w_dof omp_nthreads)) = true.
Proof. destruct s; reflexivity. Qed.

(** ** Structure of the registration workflows *)

Import Engine.
Open Scope string_scope.

(** A field an [IdentityInterface] does not have is never produced. *)
Lemma eval_out_no_field
      (cmp : value -> value -> option bool) (w : workflow) (k : nat)
      (n : node) (f : string) (fields : list string) :
  interface_of (nodes w) n = Some (IdentityInterface fields) ->
  existsb (String.eqb f) fields = false ->
  eval_out cmp w (S k) n f = None.
Proof.
  intros Hi Hf. simpl. rewrite Hi, Hf. reflexivity.
Qed.

(** The four fields of [outputnode]. *)
Lemma outputnode_field (s : strategy) (bold2t1w_dof omp_nthreads : nat)
      (cmp : value -> value -> option bool) (f : string) (v : value) :
  eval_out cmp (build s bold2t1w_dof omp_nthreads) depth outputnode f
  = Some v ->
  f = "itk_bold_to_t1" \/ f = "itk_t1_to_bold" \/ f = "out_report"
  \/ f = "fallback".
Proof.
  intros E.
  destruct (string_dec f "itk_bold_to_t1") as [|N1]; [auto|].
  destruct (string_dec f "itk_t1_to_bold") as [|N2]; [auto|].
  destruct (string_dec f "out_report") as [|N3]; [auto|].
  destruct (string_dec f "fallback") as [|N4]; [auto|].
  exfalso.
  apply String.eqb_neq in N1, N2, N3, N4.
  unfold depth in E.
  rewrite (@eval_out_no_field cmp (build s bold2t1w_dof omp_nthreads) 11
             outputnode f
             ["itk_bold_to_t1"; "itk_t1_to_bold"; "out_report"; "fallback"])
    in E; [discriminate|destruct s; reflexivity|].
  cbn [existsb]. rewrite N1, N2, N3, N4. reflexivity.
Qed.

(** The outputs stand or fall with the comparison.  When the function behind
    [compare_transforms] raises, [outputnode] gets none of its fields, with
    any number of evaluation steps: no transform, no report, no [fallback]
    flag.  When it returns [b], all four are produced; [fallback] is [b] and
    the report is the one of the registration [b] selects. *)
Theorem outputs_all_or_nothing
        (s : strategy) (bold2t1w_dof omp_nthreads : nat)
        (cmp : value -> value -> option bool) :
  let w := build s bold2t1w_dof omp_nthreads in
  let test_mat := VOut (refined s) (xfm_field s) in
  let fallback_mat := VOut (fallback s) (xfm_field s) in
  (cmp test_mat fallback_mat = None ->
   forall (fuel : nat) (f : string),
     eval_out cmp w fuel outputnode f = None) /\
  (forall b : bool,
      cmp test_mat fallback_mat = Some b ->
      forall fuel : nat,
        (depth <= fuel)%nat ->
        eval_out cmp w fuel outputnode "fallback" = Some (VBool b) /\
        eval_out cmp w fuel outputnode "out_report"
        = Some (VOut (chosen s b) "out_report") /\
        (exists fwd, eval_out cmp w fuel outputnode "itk_bold_to_t1"
                     = Some fwd) /\
        (exists inv, eval_out cmp w fuel outputnode "itk_t1_to_bold"
                     = Some inv)).
Proof.
  intros w test_mat fallback_mat. split.
  - intros Hnone fuel f.
    destruct (eval_out cmp w fuel outputnode f) as [v|] eqn:E; [|reflexivity].
    exfalso.
    apply (@engine_eval_at_depth cmp _
             (build_ranked s bold2t1w_dof omp_nthreads)) in E.
    destruct (outputnode_field _ _ _ _ _ E) as [-> | [-> | [-> | ->]]];
      revert E; subst w test_mat fallback_mat;
      destruct s; vm_compute in Hnone; vm_compute; rewrite Hnone;
      discriminate.
  - intros b Hb fuel Hfuel.
    assert (Hsome : forall f v,
               eval_out cmp w depth outputnode f = Some v ->
               eval_out cmp w fuel outputnode f = Some v)
      by (intros f v; apply eval_out_le; exact Hfuel).
    split; [|split; [|split]].
    + apply Hsome. subst w test_mat fallback_mat.
      destruct s; vm_compute in Hb; vm_compute; rewrite Hb; reflexivity.
    + apply Hsome. subst w test_mat fallback_mat.
      destruct s; vm_compute in Hb; vm_compute; rewrite Hb;
        destruct b; reflexivity.
    + destruct (eval_out cmp w depth outputnode "itk_bold_to_t1")
        as [fwd|] eqn:Ef; [exists fwd; apply Hsome; exact Ef|].
      exfalso. revert Ef. subst w test_mat fallback_mat.
      destruct s; vm_compute in Hb; vm_compute; rewrite Hb;
        destruct b; vm_compute; discriminate.
    + destruct (eval_out cmp w depth outputnode "itk_t1_to_bold")
        as [inv|] eqn:Ei; [exists inv; apply Hsome; exact Ei|].
      exfalso. revert Ei. subst w test_mat fallback_mat.
      destruct s; vm_compute in Hb; vm_compute; rewrite Hb;
        destruct b; vm_compute; discriminate.
Qed.

(** In both workflows the refined registration starts from the transform of
    the fallback registration ([init_reg_file], [in_matrix_file]): the
    refined candidate depends on the fallback one, never the other way
    round, and no node depends on itself. *)
Theorem refined_depends_on_fallback
        (s : strategy) (bold2t1w_dof omp_nthreads : nat) :
  let w := build s bold2t1w_dof omp_nthreads in
  source_of w (refined s) (Structure.init_field s)
  = Some (fallback s, xfm_field s) /\
  Dataflow.depends_on (connections w) (refined s) (fallback s) /\
  ~ Dataflow.depends_on (connections w) (fallback s) (refined s) /\
  (forall n : node, ~ Dataflow.depends_on (connections w) n n).
Proof.
  intros w. pose proof (build_ranked s bold2t1w_dof omp_nthreads) as Hr.
  split; [destruct s; reflexivity|]. split; [|split].
  - apply Relation_Operators.t_step.
    exists (xfm_field s), (Structure.init_field s).
    destruct s; cbn; tauto.
  - intros Hd. apply (ranked_depends Structure.rank Hr) in Hd.
    destruct s; cbn in Hd; lia.
  - intros n. apply (ranked_acyclic Structure.rank Hr).
Qed.

(** ** The connection lists are well formed *)

Lemma distinct_NoDup (node : Type) (node_eqb : node -> node -> bool)
      (l : list (node * string)) :
  (forall a : node, node_eqb a a = true) ->
  Dataflow.distinct node_eqb l = true -> NoDup l.
Proof.
  intros Hrefl.
  induction l as [|p r IH]; intros H; [constructor|].
  cbn in H. apply andb_prop in H. destruct H as [Hp Hr].
  constructor; [|apply IH; exact Hr].
  intros Hin. apply negb_true_iff in Hp.
  assert (Hex : existsb (Dataflow.port_eqb node_eqb p) r = true).
  { apply existsb_exists. exists p. split; [exact Hin|].
    unfold Dataflow.port_eqb. rewrite Hrefl, String.eqb_refl.
    reflexivity. }
  congruence.
Qed.

(** The connections of both registration workflows are well formed.  No
    input is the destination of two connections, so the source of an input
    is the only one there is.  Every connection joins two nodes of the
    workflow, and a field it uses on an [IdentityInterface] is one of the
    fields that node was given.  Nothing is connected into [inputnode], and
    every field of [outputnode] has a source. *)
Theorem registration_connections_well_formed
        (s : strategy) (bold2t1w_dof omp_nthreads : nat) :
  let w := build s bold2t1w_dof omp_nthreads in
  NoDup (map (@Dataflow.dst_port node) (Dataflow.edges (connections w))) /\
  (forall (src : node) (sf : string) (dst : node) (df : string),
      In (src, sf, dst, df) (Dataflow.edges (connections w)) ->
      interface_of (nodes w) src <> None /\
      interface_of (nodes w) dst <> None /\
      (forall fields,
          interface_of (nodes w) src = Some (IdentityInterface fields) ->
          In sf fields) /\
      (forall fields,
          interface_of (nodes w) dst = Some (IdentityInterface fields) ->
          In df fields)) /\
  incoming w inputnode = [] /\
  (forall fields f,
      interface_of (nodes w) outputnode = Some (IdentityInterface fields) ->
      In f fields ->
      exists src sf, source_of w outputnode f = Some (src, sf)).
Proof.
  intros w. subst w. split; [|split; [|split]].
  - apply (@distinct_NoDup node node_beq);
      [intros a; apply internal_node_dec_lb; reflexivity
      |destruct s; reflexivity].
  - intros src sf dst df Hin.
    destruct s; cbn in Hin;
      repeat (destruct Hin as [Hin|Hin];
              [injection Hin as <- <- <- <-;
               repeat split; try discriminate;
               intros fields Hf; try discriminate Hf;
               injection Hf as <-; cbn; tauto|]);
      contradiction.
  - destruct s; reflexivity.
  - intros fields f Hi Hf.
    destruct s; cbn in Hi; injection Hi as <-; cbn in Hf;
      repeat (destruct Hf as [<-|Hf]; [eexists; eexists; reflexivity|]);
      contradiction.
Qed.

(** ** What the registration workflows read and what they leave unused *)

Lemma nothing_leaves_lta_convert
      (s : strategy) (bold2t1w_dof omp_nthreads : nat) (n : node) :
  ~ Dataflow.feeds (connections (build s bold2t1w_dof omp_nthreads))
      lta_convert n.
Proof.
  intros (sf & df & Hin).
  destruct s; cbn in Hin;
    repeat (destruct Hin as [Hin|Hin]; [discriminate Hin|]);
    contradiction.
Qed.

(** [lta_convert] is a dead end in both workflows.  It is a [MapNode] that
    iterates over one field and receives the list of both candidate
    transforms on it, but no connection leaves it: no node depends on it, and
    no value that reaches [outputnode] was produced by it, whatever the
    comparison returns and however long the evaluation runs. *)
Theorem lta_convert_is_a_dead_end
        (s : strategy) (bold2t1w_dof omp_nthreads : nat)
        (cmp : value -> value -> option bool) :
  let w := build s bold2t1w_dof omp_nthreads in
  (exists iterfield,
      interface_of (nodes w) lta_convert
      = Some (MapNode (LTAConvert false true false) [iterfield]) /\
      source_of w lta_convert iterfield = Some (transforms, "out")) /\
  (forall n : node, ~ Dataflow.depends_on (connections w) n lta_convert) /\
  (forall (fuel : nat) (f : string) (v : value),
      eval_out cmp w fuel outputnode f = Some v ->
      Structure.produced_by lta_convert v = false).
Proof.
  intros w. split; [|split].
  - destruct s; eexists; split; reflexivity.
  - intros n Hd. unfold Dataflow.depends_on in Hd.
    remember lta_convert as a eqn:Ea.
    induction Hd as [a b Hf | a c b _ IH1 _ _]; subst a.
    + exact (@nothing_leaves_lta_convert s bold2t1w_dof omp_nthreads b Hf).
    + exact (IH1 eq_refl).
  - intros fuel f v E.
    apply (@engine_eval_at_depth cmp _
             (build_ranked s bold2t1w_dof omp_nthreads)) in E.
    destruct (outputnode_field _ _ _ _ _ E) as [-> | [-> | [-> | ->]]];
      revert E; subst w;
      destruct s; vm_compute;
      destruct (cmp _ _) as [[|]|]; intros E;
      try discriminate E; injection E as <-; reflexivity.
Qed.

(** The fields of [inputnode] each workflow reads.  Both declare the same six
    fields.  [init_bbreg_wf] reads five of them, [t1_brain] among them (as
    the reference of [fsl2itk_fwd] and the source of [fsl2itk_inv]), and
    never [t1_seg]; [init_fsl_bbr_wf] reads [in_file], [t1_seg] and
    [t1_brain] and none of the three FreeSurfer inputs. *)
Theorem declared_inputs_read (bold2t1w_dof omp_nthreads : nat) :
  let bbreg := init_bbreg_wf bold2t1w_dof omp_nthreads in
  let fsl_bbr := init_fsl_bbr_wf bold2t1w_dof in
  interface_of (nodes bbreg) inputnode
  = interface_of (nodes fsl_bbr) inputnode /\
  (forall f : string,
      In f (Dataflow.fields_read node_beq (connections bbreg) inputnode) <->
      In f ["in_file"; "t1_2_fsnative_reverse_transform"; "subjects_dir";
            "subject_id"; "t1_brain"]) /\
  (forall f : string,
      In f (Dataflow.fields_read node_beq (connections fsl_bbr) inputnode) <->
      In f ["in_file"; "t1_seg"; "t1_brain"]).
Proof.
  intros bbreg fsl_bbr. split; [reflexivity|].
  split; intros f; cbn; tauto.
Qed.

(** The two exported transforms are converted with reference and source
    swapped: [fsl2itk_fwd] is given [t1_brain] as reference and [in_file] as
    source, [fsl2itk_inv] [in_file] as reference and [t1_brain] as source, in
    both workflows and for either verdict; the transform the forward one
    converts went through no inverting node, the other through one. *)
Theorem itk_reference_and_source_swap
        (s : strategy) (bold2t1w_dof omp_nthreads fuel : nat)
        (cmp : value -> value -> option bool) (reject_refined : bool) :
  cmp (VOut (refined s) (xfm_field s)) (VOut (fallback s) (xfm_field s))
  = Some reject_refined ->
  (depth <= fuel)%nat ->
  let w := build s bold2t1w_dof omp_nthreads in
  let t1 := VOut inputnode "t1_brain" in
  let bold := VOut inputnode "in_file" in
  exists fwd_xfm inv_xfm,
    eval_out cmp w fuel outputnode "itk_bold_to_t1"
    = Some (VApp fsl2itk_fwd "itk_transform"
                 [("reference_file", t1); ("source_file", bold);
                  ("transform_file", fwd_xfm)]) /\
    eval_out cmp w fuel outputnode "itk_t1_to_bold"
    = Some (VApp fsl2itk_inv "itk_transform"
                 [("reference_file", bold); ("source_file", t1);
                  ("transform_file", inv_xfm)]) /\
    inversions w fwd_xfm = 0%nat /\
    inversions w inv_xfm = 1%nat.
Proof.
  intros Hcmp Hfuel w t1 bold.
  assert (Hsome : forall f v,
             eval_out cmp w depth outputnode f = Some v ->
             eval_out cmp w fuel outputnode f = Some v)
    by (intros f v; apply eval_out_le; exact Hfuel).
  subst w t1 bold.
  destruct s, reject_refined; vm_compute in Hcmp;
    eexists; eexists;
    (split; [apply Hsome; vm_compute; rewrite Hcmp; reflexivity|]);
    (split; [apply Hsome; vm_compute; rewrite Hcmp; reflexivity|]);
    split; reflexivity.
Qed.

Lemma itk_reference_and_source_swap_witness :
  exists fwd_xfm inv_xfm,
    eval_out (fun _ _ => Some false) (build BBRegister 9 1) depth
             outputnode "itk_bold_to_t1"
    = Some (VApp fsl2itk_fwd "itk_transform"
                 [("reference_file", VOut inputnode "t1_brain");
                  ("source_file", VOut inputnode "in_file");
                  ("transform_file", fwd_xfm)]) /\
    eval_out (fun _ _ => Some false) (build BBRegister 9 1) depth
             outputnode "itk_t1_to_bold"
    = Some (VApp fsl2itk_inv "itk_transform"
                 [("reference_file", VOut inputnode "in_file");
                  ("source_file", VOut inputnode "t1_brain");
                  ("transform_file", inv_xfm)]).
Proof.
  destruct (@itk_reference_and_source_swap BBRegister 9 1 depth
              (fun _ _ => Some false) false eq_refl (le_n depth))
    as (fwd_xfm & inv_xfm & Hf & Hi & _).
  exists fwd_xfm, inv_xfm. split; [exact Hf | exact Hi].
Defined.

(** ** What the verdict depends on *)

(** The rotation is tested in radians and printed in degrees: exceeding
    PI/36 is exceeding 5 degrees. *)
Lemma radians_degrees (rot : R) : rot * 180 / PI > 5 <-> rot > PI / 36.
Proof.
  pose proof PI_RGT_0 as Hpi.
  assert (E : rot * 180 / PI = rot * (180 / PI)) by (unfold Rdiv; ring).
  rewrite E.
  assert (Hk : 0 < 180 / PI) by (apply Rdiv_lt_0_compat; lra).
  assert (E5 : 5 = PI / 36 * (180 / PI)) by (field; lra).
  split; intros H.
  - apply (Rmult_lt_reg_r (180 / PI)); [exact Hk|]. rewrite <- E5. exact H.
  - rewrite E5. apply Rmult_lt_compat_r; assumption.
Qed.

(** The verdict can be read off the line a run prints: it is [true] exactly
    when the printed shift exceeds 5 (mm), the printed rotation exceeds 5
    (degrees) or the printed scale exceeds 1.1. *)
Theorem verdict_from_printed_metrics
        (np : library) (test_mat fallback_mat : value) (out out' : stdout)
        (b : bool) :
  compare_xforms np test_mat fallback_mat out = (inr b, out') ->
  exists shift_mm rot_deg max_scale,
    out' = (out ++ [(metrics_format, [shift_mm; rot_deg; max_scale])])%list /\
    (b = true <-> shift_mm > 5 \/ rot_deg > 5 \/ max_scale > 1.1).
Proof.
  intros Hrun.
  destruct (compare_xforms_inv _ _ _ _ Hrun)
    as (mat1 & mat2 & P & t & Rm & sc & sh & dir & a & _ & _ & _ & _ & _
        & Hb & Hout).
  exists (sqrt (dot3 t t)), (a * 180 / PI), (np_max (np_abs sc)).
  split; [exact Hout|].
  rewrite Hb, gate_true, radians_degrees. tauto.
Qed.

Lemma verdict_from_printed_metrics_witness :
  exists shift_mm rot_deg max_scale,
    ([] ++ [(metrics_format,
             [sqrt (dot3 (0, 0, 6) (0, 0, 6)); 0 * 180 / PI;
              np_max (np_abs ones)])])%list
    = ([] ++ [(metrics_format, [shift_mm; rot_deg; max_scale])])%list /\
    (gt (sqrt (dot3 (0, 0, 6) (0, 0, 6))) 5 = true <->
     shift_mm > 5 \/ rot_deg > 5 \/ max_scale > 1.1).
Proof.
  exact (@verdict_from_printed_metrics
           (Exact.lib FSL_BBR (translation (0, 0, 6)) eye4)
           (VOut flt_bbr "out_matrix_file")
           (VOut flt_bbr_init "out_matrix_file") [] _ _
           (exact_run_translation FSL_BBR (0, 0, 6) [])).
Defined.

(** Changing the coordinates of the space both transforms start from changes
    nothing: when both files hold their matrix multiplied on the right by the
    same matrix [A] with an inverse, the relative transform is the same
    matrix, and the run prints, returns or raises the same.  (The fallback
    matrix has an inverse; the routines are those of [np], asked to return
    pseudo-inverses.) *)
Theorem verdict_ignores_common_source_change
        (np : library) (files' : value -> result mat44)
        (test_mat fallback_mat : value) (out : stdout)
        (mat1 mat2 A P P' : mat44) :
  let np' := {| loadtxt := files';
                pinv := pinv np;
                decompose44 := decompose44 np;
                mat2axangle := mat2axangle np |} in
  loadtxt np fallback_mat = inr mat1 ->
  loadtxt np test_mat = inr mat2 ->
  files' fallback_mat = inr (dot mat1 A) ->
  files' test_mat = inr (dot mat2 A) ->
  invertible mat1 ->
  invertible A ->
  pinv np mat1 = inr P ->
  penrose mat1 P ->
  pinv np (dot mat1 A) = inr P' ->
  penrose (dot mat1 A) P' ->
  dot (dot mat2 A) P' = dot mat2 P /\
  compare_xforms np' test_mat fallback_mat out
  = compare_xforms np test_mat fallback_mat out.
Proof.
  intros np' Hfb Htest Hfb' Htest' (B & HB1 & HB2) (Ai & HA1 & HA2)
         Hpinv HP Hpinv' HP'.
  assert (P = B) as ->
      by (apply (penrose_unique HP); apply penrose_inverse; assumption).
  assert (P' = dot Ai B) as ->.
  { apply (penrose_unique HP'). apply penrose_inverse.
    - rewrite dot_assoc, <- (dot_assoc A Ai B), HA1, dot_eye_l. exact HB1.
    - rewrite dot_assoc, <- (dot_assoc B mat1 A), HB2, dot_eye_l. exact HA2. }
  assert (Hcomp : dot (dot mat2 A) (dot Ai B) = dot mat2 B)
    by (rewrite dot_assoc, <- (dot_assoc A Ai B), HA1, dot_eye_l;
        reflexivity).
  split; [exact Hcomp|].
  unfold compare_xforms, bind, call. subst np'. cbn [loadtxt pinv
    decompose44 mat2axangle].
  rewrite Hfb, Htest, Hfb', Htest', Hpinv, Hpinv', Hcomp. reflexivity.
Qed.

Lemma translation_dot (t0 t1 t2 u0 u1 u2 : R) :
  dot (translation (t0, t1, t2)) (translation (u0, u1, u2))
  = translation (t0 + u0, t1 + u1, t2 + u2).
Proof. array_ring. Qed.

Lemma translation_invertible (t : vec3) : invertible (translation t).
Proof.
  destruct t as [[t0 t1] t2].
  exists (translation (- t0, - t1, - t2)). apply translation_inverse.
Qed.

Lemma penrose_translation (t0 t1 t2 : R) :
  penrose (translation (t0, t1, t2)) (translation (- t0, - t1, - t2)).
Proof.
  destruct (translation_inverse t0 t1 t2) as [Hl Hr].
  apply penrose_inverse; assumption.
Qed.

Lemma verdict_ignores_common_source_change_witness :
  compare_xforms
    (Exact.lib FSL_BBR
               (dot (translation (0, 0, 6)) (translation (4, 5, 6)))
               (dot (translation (1, 2, 3)) (translation (4, 5, 6))))
    (VOut flt_bbr "out_matrix_file") (VOut flt_bbr_init "out_matrix_file") []
  = compare_xforms
      (Exact.lib FSL_BBR (translation (0, 0, 6)) (translation (1, 2, 3)))
      (VOut flt_bbr "out_matrix_file") (VOut flt_bbr_init "out_matrix_file")
      [].
Proof.
  refine (proj2
    (@verdict_ignores_common_source_change
       (Exact.lib FSL_BBR (translation (0, 0, 6)) (translation (1, 2, 3)))
       (Exact.disk FSL_BBR
                   (dot (translation (0, 0, 6)) (translation (4, 5, 6)))
                   (dot (translation (1, 2, 3)) (translation (4, 5, 6))))
       (VOut flt_bbr "out_matrix_file") (VOut flt_bbr_init "out_matrix_file")
       [] (translation (1, 2, 3)) (translation (0, 0, 6))
       (translation (4, 5, 6))
       (translation (- (1), - (2), - (3)))
       (translation (- (1 + 4), - (2 + 5), - (3 + 6)))
       eq_refl eq_refl eq_refl eq_refl
       (translation_invertible (1, 2, 3)) (translation_invertible (4, 5, 6))
       (exact_pinv (penrose_translation 1 2 3)) (penrose_translation 1 2 3)
       _ _)).
  - cbn [pinv Exact.lib]. rewrite translation_dot.
    apply exact_pinv, penrose_translation.
  - rewrite translation_dot. apply penrose_translation.
Defined.

Lemma stretch_inverse (k : R) :
  k <> 0 ->
  dot (stretch k) (stretch (/ k)) = eye4 /\
  dot (stretch (/ k)) (stretch k) = eye4.
Proof.
  intros Hk. unfold stretch.
  split; unfold_arrays; array_eq; field; exact Hk.
Qed.

Lemma max_scale_stretch (k : R) :
  0 < k -> np_max (np_abs (k, 1, 1)) = Rmax k 1.
Proof.
  intros Hk. unfold np_max, np_abs.
  rewrite Rabs_R1, (Rabs_pos_eq k) by lra.
  unfold Rmax. repeat destruct (Rle_dec _ _); lra.
Qed.

(** The two files are not interchangeable.  The scale test looks at the
    scales of the refined transform relative to the fallback one: a refined
    matrix that stretches an axis by [k > 1.1] against the identity as
    fallback is rejected, while with the two files exchanged the relative
    transform shrinks that axis by [k], its largest scale is 1, and the run
    returns [false].  (The routines are asked to return pseudo-inverses, the
    decomposition of a stretch of one axis and the angle 0 of the identity
    rotation.) *)
Theorem exchanging_the_files_changes_the_verdict
        (np : library) (files' : value -> result mat44)
        (test_mat fallback_mat : value) (out : stdout)
        (k : R) (P P' : mat44) (direction : vec3) :
  let np' := {| loadtxt := files';
                pinv := pinv np;
                decompose44 := decompose44 np;
                mat2axangle := mat2axangle np |} in
  1.1 < k ->
  loadtxt np fallback_mat = inr eye4 ->
  loadtxt np test_mat = inr (stretch k) ->
  files' fallback_mat = inr (stretch k) ->
  files' test_mat = inr eye4 ->
  pinv np eye4 = inr P ->
  penrose eye4 P ->
  pinv np (stretch k) = inr P' ->
  penrose (stretch k) P' ->
  (forall c : R,
      0 < c ->
      decompose44 np (stretch c) = inr (zeros, eye3, (c, 1, 1), zeros)) ->
  mat2axangle np eye3 = inr (direction, 0) ->
  compare_xforms np test_mat fallback_mat out
  = (inr true, (out ++ [(metrics_format, [0; 0; k])])%list) /\
  compare_xforms np' test_mat fallback_mat out
  = (inr false, (out ++ [(metrics_format, [0; 0; 1])])%list).
Proof.
  intros np' Hk Hfb Htest Hfb' Htest' Hpinv HP Hpinv' HP' Hdec Hax.
  assert (Hk0 : 0 < k) by lra.
  assert (Hik : 0 < / k) by (apply Rinv_0_lt_compat; exact Hk0).
  assert (Hik1 : / k < 1).
  { rewrite <- Rinv_1. apply Rinv_lt_contravar; lra. }
  assert (P = eye4) as -> by (apply (penrose_unique HP penrose_eye)).
  assert (P' = stretch (/ k)) as ->.
  { apply (penrose_unique HP').
    destruct (@stretch_inverse k) as [Hl Hr]; [lra|].
    apply penrose_inverse; assumption. }
  assert (Hdeg : 0 * 180 / PI = 0) by (unfold Rdiv; ring).
  split.
  - rewrite (@compare_xforms_returns np test_mat fallback_mat out
               eye4 (stretch k) eye4 zeros eye3 (k, 1, 1) zeros direction 0);
      trivial.
    + rewrite shift_zeros, Hdeg, (max_scale_stretch Hk0).
      rewrite Rmax_left by lra.
      assert (Hg : gate 0 0 k = true) by (apply gate_true; right; right; lra).
      rewrite Hg. reflexivity.
    + rewrite dot_eye_r. apply Hdec. exact Hk0.
  - rewrite (@compare_xforms_returns np' test_mat fallback_mat out
               (stretch k) eye4 (stretch (/ k)) zeros eye3 (/ k, 1, 1) zeros
               direction 0); trivial.
    + rewrite shift_zeros, Hdeg, (max_scale_stretch Hik).
      rewrite Rmax_right by lra.
      assert (Hg : gate 0 0 1 = false).
      { apply gate_false. pose proof PI_RGT_0. repeat split; lra. }
      rewrite Hg. reflexivity.
    + subst np'. cbn [decompose44]. rewrite dot_eye_l. apply Hdec. exact Hik.
Qed.

Lemma exact_decompose44_stretch (c : R) :
  0 < c ->
  Exact.decompose44 (stretch c) = inr (zeros, eye3, (c, 1, 1), zeros).
Proof.
  intros Hc.
  apply (@exact_decompose44_diag c 1 1 0 0 0 (0, 0, 0, 1)); lra.
Qed.

Lemma exchanging_the_files_changes_the_verdict_witness :
  compare_xforms (Exact.lib FSL_BBR (stretch 2) eye4)
                 (VOut flt_bbr "out_matrix_file")
                 (VOut flt_bbr_init "out_matrix_file") []
  = (inr true, [(metrics_format, [0; 0; 2])]) /\
  compare_xforms (Exact.lib FSL_BBR eye4 (stretch 2))
                 (VOut flt_bbr "out_matrix_file")
                 (VOut flt_bbr_init "out_matrix_file") []
  = (inr false, [(metrics_format, [0; 0; 1])]).
Proof.
  destruct exact_mat2axangle_eye3 as [direction Hax].
  assert (H2 : (2 : R) <> 0) by lra.
  destruct (stretch_inverse H2) as [Hl Hr].
  refine (@exchanging_the_files_changes_the_verdict
            (Exact.lib FSL_BBR (stretch 2) eye4)
            (Exact.disk FSL_BBR eye4 (stretch 2))
            (VOut flt_bbr "out_matrix_file")
            (VOut flt_bbr_init "out_matrix_file") []
            2 eye4 (stretch (/ 2)) direction
            _ eq_refl eq_refl eq_refl eq_refl
            (exact_pinv penrose_eye) penrose_eye
            (exact_pinv (@penrose_inverse _ _ Hl Hr))
            (@penrose_inverse _ _ Hl Hr)
            exact_decompose44_stretch Hax).
  lra.
Defined.

(** ** The skull-stripping workflows *)

Section SkullstripFacts.

Import Skullstrip.

Lemma skullstrip_ranked (b : builder) :
  Dataflow.ranked rank (connections (build b)) = true.
Proof. destruct b; reflexivity. Qed.

Lemma skullstrip_rank_depth (n : node) : (rank n < depth)%nat.
Proof. unfold depth. destruct n; cbn; lia. Qed.

(** With [depth] steps or more the evaluation gives what it gives with
    [depth] steps. *)
Lemma skullstrip_eval_depth (b : builder) (fuel : nat) (n : node)
      (f : string) :
  (depth <= fuel)%nat -> eval (build b) fuel n f = eval (build b) depth n f.
Proof.
  intros Hfuel. unfold eval.
  apply (@dataflow_eval_stable node node_beq internal_node_dec_bl rank
           (graph_of (build b)) (skullstrip_ranked b)).
  - pose proof (skullstrip_rank_depth n). lia.
  - apply skullstrip_rank_depth.
Qed.

Lemma skullstrip_eval_in_depth (b : builder) (fuel : nat) (n : node)
      (f : string) :
  (depth <= fuel)%nat ->
  eval_in (build b) fuel n f = eval_in (build b) depth n f.
Proof.
  intros Hfuel. unfold eval_in.
  destruct (Dataflow.source_of node_beq (graph_of (build b)) n f)
    as [[src sf]|]; [|reflexivity].
  apply skullstrip_eval_depth. exact Hfuel.
Qed.

(** Both workflows compute one mask and use it three times: the mask that is
    exported as [mask_file] is the mask [apply_mask] applies and the mask the
    reportlet shows.  It is the output of [combine_masks], a [BinaryMaths]
    with operation [mul], on the mask of the first pass and the output of
    the second pass.  The second pass does not see the image the first pass
    was given: it runs on the [out_file] of the first pass, directly in
    [init_skullstrip_bold_wf] and after [unifize] in
    [init_enhance_and_skullstrip_bold_wf].  The node [apply_mask] does not
    occur in the computation of the mask. *)
Theorem skullstrip_one_mask (b : builder) (fuel : nat) :
  (depth <= fuel)%nat ->
  let w := build b in
  let in_file := Dataflow.Input node "in_file" in
  let first_in :=
    match b with
    | skullstrip => in_file
    | enhance_and_skullstrip _ =>
        Dataflow.Run n4_correct "output_image" [("input_image", in_file)]
    end in
  let first_out :=
    Dataflow.Run skullstrip_first_pass "out_file" [("in_file", first_in)] in
  let first_mask :=
    Dataflow.Run skullstrip_first_pass "mask_file" [("in_file", first_in)] in
  let second_in :=
    match b with
    | skullstrip => first_out
    | enhance_and_skullstrip _ =>
        Dataflow.Run unifize "out_file" [("in_file", first_out)]
    end in
  let second_out :=
    Dataflow.Run skullstrip_second_pass "out_file"
                 [("in_file", second_in)] in
  let mask := combined_mask first_mask second_out in
  eval w fuel outputnode "mask_file" = Some mask /\
  eval_in w fuel apply_mask "mask_file" = Some mask /\
  eval_in w fuel mask_reportlet "mask_file" = Some mask /\
  interface_of (nodes w) combine_masks = Some (BinaryMaths "mul") /\
  eval_in w fuel skullstrip_first_pass "in_file" = Some first_in /\
  eval_in w fuel skullstrip_second_pass "in_file" = Some second_in /\
  Dataflow.uses node_beq apply_mask mask = false.
Proof.
  intros Hfuel w in_file first_in first_out first_mask second_in second_out
         mask.
  subst w in_file first_in first_out first_mask second_in second_out mask.
  rewrite (skullstrip_eval_depth b outputnode "mask_file" Hfuel),
          (skullstrip_eval_in_depth b apply_mask "mask_file" Hfuel),
          (skullstrip_eval_in_depth b mask_reportlet "mask_file" Hfuel),
          (skullstrip_eval_in_depth b skullstrip_first_pass "in_file" Hfuel),
          (skullstrip_eval_in_depth b skullstrip_second_pass "in_file"
                                    Hfuel).
  destruct b; repeat split; reflexivity.
Qed.

Lemma skullstrip_one_mask_witness :
  eval_in init_skullstrip_bold_wf depth skullstrip_second_pass "in_file"
  = Some (Dataflow.Run skullstrip_first_pass "out_file"
                       [("in_file", Dataflow.Input node "in_file")]) /\
  eval_in (init_enhance_and_skullstrip_bold_wf 1) depth
          skullstrip_second_pass "in_file"
  = Some (Dataflow.Run unifize "out_file"
            [("in_file",
              Dataflow.Run skullstrip_first_pass "out_file"
                [("in_file",
                  Dataflow.Run n4_correct "output_image"
                    [("input_image", Dataflow.Input node "in_file")])])]).
Proof.
  split.
  - exact (proj1 (proj2 (proj2 (proj2 (proj2 (proj2
      (@skullstrip_one_mask skullstrip depth (le_n depth)))))))).
  - exact (proj1 (proj2 (proj2 (proj2 (proj2 (proj2
      (@skullstrip_one_mask (enhance_and_skullstrip 1) depth
                            (le_n depth)))))))).
Defined.

(** What each workflow masks.  [init_skullstrip_bold_wf] applies the mask to
    the input image itself, shows it on the input image, and has no
    [bias_corrected_file].  [init_enhance_and_skullstrip_bold_wf] exports the
    output of [n4_correct] as [bias_corrected_file] and shows the mask on it,
    but the image it masks is the output of [unifize], computed from the
    first pass on the corrected image; the masked image then gets the header
    of the original [in_file] from [copy_xform]. *)
Theorem skull_stripped_file_lineage (b : builder) (fuel : nat) :
  (depth <= fuel)%nat ->
  let w := build b in
  let in_file := Dataflow.Input node "in_file" in
  exists mask,
    eval w fuel outputnode "mask_file" = Some mask /\
    match b with
    | skullstrip =>
        eval w fuel outputnode "skull_stripped_file"
        = Some (Dataflow.Run apply_mask "out_file"
                             [("in_file", in_file); ("mask_file", mask)]) /\
        eval_in w fuel mask_reportlet "background_file" = Some in_file /\
        eval w fuel outputnode "bias_corrected_file" = None
    | enhance_and_skullstrip _ =>
        let bias_corrected :=
          Dataflow.Run n4_correct "output_image"
                       [("input_image", in_file)] in
        let unifized :=
          Dataflow.Run unifize "out_file"
                       [("in_file",
                         Dataflow.Run skullstrip_first_pass "out_file"
                                      [("in_file", bias_corrected)])] in
        eval w fuel outputnode "skull_stripped_file"
        = Some (Dataflow.Run copy_xform "out_file"
                  [("hdr_file", in_file);
                   ("in_file",
                    Dataflow.Run apply_mask "out_file"
                                 [("in_file", unifized);
                                  ("mask_file", mask)])]) /\
        eval_in w fuel mask_reportlet "background_file"
        = Some bias_corrected /\
        eval w fuel outputnode "bias_corrected_file" = Some bias_corrected
    end.
Proof.
  intros Hfuel w in_file. subst w in_file.
  rewrite (skullstrip_eval_depth b outputnode "mask_file" Hfuel),
          (skullstrip_eval_depth b outputnode "skull_stripped_file" Hfuel),
          (skullstrip_eval_depth b outputnode "bias_corrected_file" Hfuel),
          (skullstrip_eval_in_depth b mask_reportlet "background_file"
                                    Hfuel).
  destruct b; eexists; repeat split; reflexivity.
Qed.

Lemma skull_stripped_file_lineage_witness :
  eval_in (init_enhance_and_skullstrip_bold_wf 1) depth mask_reportlet
          "background_file"
  = eval (init_enhance_and_skullstrip_bold_wf 1) depth outputnode
         "bias_corrected_file".
Proof.
  destruct (@skull_stripped_file_lineage (enhance_and_skullstrip 1) depth
              (le_n depth)) as (mask & _ & _ & Hbg & Hbias).
  exact (eq_trans Hbg (eq_sym Hbias)).
Defined.

(** Both skull-stripping workflows are well formed and run to completion:
    no input is the destination of two connections, no node depends on
    itself, nothing is connected into [inputnode], every field of
    [outputnode] is produced once the evaluation has [depth] steps, and more
    steps change no value of any node. *)
Theorem skullstrip_workflows_complete (b : builder) :
  let w := build b in
  NoDup (map (@Dataflow.dst_port node) (Dataflow.edges (connections w))) /\
  (forall n : node, ~ Dataflow.depends_on (connections w) n n) /\
  Dataflow.incoming node_beq (graph_of w) inputnode = [] /\
  (forall (fields : list string) (f : string),
      interface_of (nodes w) outputnode = Some (IdentityInterface fields) ->
      In f fields ->
      exists v, eval w depth outputnode f = Some v) /\
  (forall (fuel : nat) (n : node) (f : string),
      (depth <= fuel)%nat -> eval w fuel n f = eval w depth n f).
Proof.
  intros w. subst w. split; [|split; [|split; [|split]]].
  - apply (@distinct_NoDup node node_beq);
      [intros a; apply internal_node_dec_lb; reflexivity
      |destruct b; reflexivity].
  - intros n. apply (ranked_acyclic rank (skullstrip_ranked b)).
  - destruct b; reflexivity.
  - intros fields f Hi Hf. unfold eval.
    apply (@dataflow_eval_total node node_beq internal_node_dec_bl rank
             (graph_of (build b)) (skullstrip_ranked b)).
    + destruct b; reflexivity.
    + apply skullstrip_rank_depth.
    + unfold Dataflow.has_field. cbn [fst snd].
      destruct b; cbn in Hi; injection Hi as <-; cbn in Hf;
        repeat (destruct Hf as [<-|Hf]; [reflexivity|]); contradiction.
  - intros fuel n f Hfuel. apply skullstrip_eval_depth. exact Hfuel.
Qed.

End SkullstripFacts.

(** ** Shears *)

Lemma exact_decompose44_shear (sxy sxz syz : R) :
  Exact.decompose44 (shear sxy sxz syz)
  = inr (zeros, eye3, ones, (sxy, sxz, syz)).
Proof.
  unfold Exact.decompose44, shear.
  cbv beta iota zeta delta
      [affine dot3 Exact.div3 Exact.sub3 Exact.add3 Exact.scale3].
  assert (S1 : sqrt (1 * 1 + 0 * 0 + 0 * 0) = 1).
  { replace (1 * 1 + 0 * 0 + 0 * 0) with (1 * 1) by ring.
    apply sqrt_square; lra. }
  rewrite S1.
  replace (1 / 1) with 1 by field.
  replace (0 / 1) with 0 by field.
  replace (1 * sxy + 0 * 1 + 0 * 0) with sxy by ring.
  replace (sxy - sxy * 1) with 0 by ring.
  replace (1 - sxy * 0) with 1 by ring.
  replace (0 - sxy * 0) with 0 by ring.
  assert (S2 : sqrt (0 * 0 + 1 * 1 + 0 * 0) = 1).
  { replace (0 * 0 + 1 * 1 + 0 * 0) with (1 * 1) by ring.
    apply sqrt_square; lra. }
  rewrite S2.
  replace (1 / 1) with 1 by field.
  replace (0 / 1) with 0 by field.
  replace (sxy / 1) with sxy by field.
  replace (1 * sxz + 0 * syz + 0 * 1) with sxz by ring.
  replace (0 * sxz + 1 * syz + 0 * 1) with syz by ring.
  replace (sxz - (sxz * 1 + syz * 0)) with 0 by ring.
  replace (syz - (sxz * 0 + syz * 1)) with 0 by ring.
  replace (1 - (sxz * 0 + syz * 0)) with 1 by ring.
  assert (S3 : sqrt (0 * 0 + 0 * 0 + 1 * 1) = 1).
  { replace (0 * 0 + 0 * 0 + 1 * 1) with (1 * 1) by ring.
    apply sqrt_square; lra. }
  rewrite S3.
  replace (1 / 1) with 1 by field.
  replace (0 / 1) with 0 by field.
  replace (sxz / 1) with sxz by field.
  replace (syz / 1) with syz by field.
  rewrite !eqb0_false by lra.
  cbv beta iota zeta delta [orb Exact.of_columns det3].
  destruct (Rlt_dec _ 0) as [Hneg|_]; [exfalso; lra|reflexivity].
Qed.

(** The shears of the decomposition are never looked at.  Two decomposition
    routines that return the same translation, rotation and scales, and
    raise the same exceptions, give the same run, whatever shears each of
    them returns.  So a refined transform that is the fallback transform
    followed by a shear matrix, with any three shears, is accepted: the
    decomposition of a shear matrix has no translation, the identity as
    rotation and unit scales, and the run prints a shift of 0, a rotation of
    0 and a scale of 1.  (There the fallback matrix has an inverse, and the
    routines are asked to return a pseudo-inverse, this decomposition, and
    the angle 0 of the identity rotation.) *)
Theorem shears_are_never_looked_at
        (np : library)
        (decompose44' : mat44 -> result (vec3 * mat33 * vec3 * vec3))
        (test_mat fallback_mat : value) (out : stdout) :
  let np' := {| loadtxt := loadtxt np;
                pinv := pinv np;
                decompose44 := decompose44';
                mat2axangle := mat2axangle np |} in
  (forall A : mat44,
      agree_up_to_shears (decompose44 np A) (decompose44' A)) ->
  compare_xforms np' test_mat fallback_mat out
  = compare_xforms np test_mat fallback_mat out /\
  (forall (mat1 P : mat44) (sxy sxz syz : R) (direction : vec3),
      loadtxt np fallback_mat = inr mat1 ->
      loadtxt np test_mat = inr (dot (shear sxy sxz syz) mat1) ->
      invertible mat1 ->
      pinv np mat1 = inr P ->
      penrose mat1 P ->
      decompose44 np (shear sxy sxz syz)
      = inr (zeros, eye3, ones, (sxy, sxz, syz)) ->
      mat2axangle np eye3 = inr (direction, 0) ->
      compare_xforms np test_mat fallback_mat out
      = (inr false, (out ++ [(metrics_format, [0; 0; 1])])%list)).
Proof.
  intros np' Hagree. split.
  - unfold compare_xforms, bind, call. subst np'.
    cbn [loadtxt pinv decompose44 mat2axangle].
    destruct (loadtxt np fallback_mat) as [e1|mat1]; [reflexivity|].
    destruct (loadtxt np test_mat) as [e2|mat2]; [reflexivity|].
    destruct (pinv np mat1) as [e3|P]; [reflexivity|].
    specialize (Hagree (dot mat2 P)). unfold agree_up_to_shears in Hagree.
    destruct (decompose44 np (dot mat2 P)) as [e4|[[[t Rm] sc] sh]],
             (decompose44' (dot mat2 P)) as [e4'|[[[t' Rm'] sc'] sh']];
      try contradiction.
    + subst e4'. reflexivity.
    + destruct Hagree as (-> & -> & ->). reflexivity.
  - intros mat1 P sxy sxz syz direction Hfb Htest Hinv Hpinv HP Hdec Hax.
    destruct (penrose_invertible Hinv HP) as [Hcomp _].
    rewrite (@compare_xforms_returns np test_mat fallback_mat out
               mat1 (dot (shear sxy sxz syz) mat1) P zeros eye3 ones
               (sxy, sxz, syz) direction 0); trivial.
    + rewrite gate_unit, shift_zeros, max_scale_ones.
      replace (0 * 180 / PI) with 0 by (unfold Rdiv; ring).
      assert (H : gt 0 5 = false) by (apply gt_false; lra).
      rewrite H. reflexivity.
    + rewrite dot_assoc, Hcomp, dot_eye_r. exact Hdec.
Qed.

Lemma forget_shears_agrees (A : mat44) :
  agree_up_to_shears
    (Exact.decompose44 A)
    (match Exact.decompose44 A with
     | inr (t, Rm, sc, _) => inr (t, Rm, sc, zeros)
     | inl e => inl e
     end).
Proof.
  unfold agree_up_to_shears.
  destruct (Exact.decompose44 A) as [e|[[[t Rm] sc] sh]]; auto.
Qed.

Lemma shears_are_never_looked_at_witness :
  compare_xforms
    (Exact.lib FSL_BBR (dot (shear 100 (- (50)) 7) (translation (1, 2, 3)))
               (translation (1, 2, 3)))
    (VOut flt_bbr "out_matrix_file") (VOut flt_bbr_init "out_matrix_file") []
  = (inr false, [(metrics_format, [0; 0; 1])]).
Proof.
  destruct exact_mat2axangle_eye3 as [direction Hax].
  exact (proj2
    (@shears_are_never_looked_at
       (Exact.lib FSL_BBR
                  (dot (shear 100 (- (50)) 7) (translation (1, 2, 3)))
                  (translation (1, 2, 3)))
       (fun A => match Exact.decompose44 A with
                 | inr (t, Rm, sc, _) => inr (t, Rm, sc, zeros)
                 | inl e => inl e
                 end)
       (VOut flt_bbr "out_matrix_file")
       (VOut flt_bbr_init "out_matrix_file") []
       forget_shears_agrees)
    (translation (1, 2, 3)) (translation (- (1), - (2), - (3)))
    100 (- (50)) 7 direction eq_refl eq_refl
    (translation_invertible (1, 2, 3))
    (exact_pinv (penrose_translation 1 2 3)) (penrose_translation 1 2 3)
    (exact_decompose44_shear 100 (- (50)) 7) Hax).
Defined.
